(** * Linear regression by gradient descent on the Keras backend

    A shallow embedding of [01_Linear_Regression.ipynb].

    The notebook builds a symbolic computational graph with the Keras
    backend ([K.placeholder], [K.variable], the overloaded [*], [+], [-],
    [K.square], [K.mean]), asks the backend for the gradient of the loss
    ([K.gradients]), compiles the graph with its updates into a callable
    ([K.function]) and calls it 200 times.

    The embedding follows that layering:
    - [num], [ndarray]: the run-time values (rank 0 and rank 1 arrays)
      without rounding: arithmetic is exact rational arithmetic, extended
      by a not-a-number value for the quotient 0/0 that the mean of an
      empty array produces;
    - [tensor]: the symbolic graph; [eval]: its evaluation with
      broadcasting; [grad]: the graph-to-graph reverse-mode differentiation
      that [K.gradients] performs;
    - [K_function]: outputs and new variable values are computed from the
      store before the call, then all variables are written;
    - [Notebook]: the graph of the notebook, cell by cell, and the loop of
      its last code cell ([training]);
    - closed forms of the gradient step, against which the graph is
      compared;
    - [Float64], [Float32]: the machine numbers, IEEE 754 binary64 and
      binary32 with rounding to nearest, infinities and not-a-number, and
      the same graph, gradient graphs and loop evaluated on binary32, as
      the backend does; what is stated about rounding, overflow or the
      sign of a recorded number is stated there.

    The backend itself is a library outside the notebook; its operations
    are given the meaning its documentation gives them. *)

From Stdlib Require Import List Bool Arith Lia ZArith QArith Qabs Lqa Permutation.
From Stdlib Require Import Floats.SpecFloat.
Import ListNotations.

Set Implicit Arguments.
Local Open Scope nat_scope.

(** ** Run-time numbers *)

(** A finite number or not-a-number.  Rounding is not modelled. *)
Inductive num : Type :=
| Fin (q : Q)
| NaN.

Definition num_lift2 (f : Q -> Q -> Q) (a c : num) : num :=
  match a, c with
  | Fin p, Fin q => Fin (f p q)
  | _, _ => NaN
  end.

Definition nadd : num -> num -> num := num_lift2 Qplus.
Definition nsub : num -> num -> num := num_lift2 Qminus.
Definition nmul : num -> num -> num := num_lift2 Qmult.

Definition nneg (a : num) : num :=
  match a with
  | Fin p => Fin (- p)
  | NaN => NaN
  end.

Definition Qnat (n : nat) : Q := inject_Z (Z.of_nat n).

(** Division of a number by an element count.  A zero count gives NaN:
    it only ever meets the total of an empty array, which is 0. *)
Definition ndiv_count (a : num) (n : nat) : num :=
  match a, n with
  | Fin p, S _ => Fin (p / Qnat n)
  | _, _ => NaN
  end.

Definition nsum (l : list num) : num := fold_right nadd (Fin 0) l.

(** ** Arrays of rank 0 and 1 *)

Inductive ndarray : Type :=
| scalar (a : num)
| array (l : list num).

Definition size (a : ndarray) : nat :=
  match a with
  | scalar _ => 1
  | array l => length l
  end.

Definition amap (f : num -> num) (a : ndarray) : ndarray :=
  match a with
  | scalar z => scalar (f z)
  | array l => array (map f l)
  end.

(** Sum of all the elements. *)
Definition total (a : ndarray) : num :=
  match a with
  | scalar z => z
  | array l => nsum l
  end.

(** Mean of all the elements: total over size, NaN for an empty array. *)
Definition mean (a : ndarray) : num := ndiv_count (total a) (size a).

(** ** Exceptions *)

Inductive exn : Type :=
| ShapeError (m n : nat)   (* operands that cannot be broadcast together *)
| FeedError                (* a placeholder without a value *)
| IndexError.              (* list index out of range *)

Inductive result (A : Type) : Type :=
| Ok (a : A)
| Raise (e : exn).

Arguments Ok {A} a.
Arguments Raise {A} e.

Definition rbind {A B} (r : result A) (k : A -> result B) : result B :=
  match r with
  | Ok a => k a
  | Raise e => Raise e
  end.

Notation "x <- c ;; k" := (rbind c (fun x => k))
  (at level 61, c at next level, right associativity).

Fixpoint mapM {A B} (f : A -> result B) (l : list A) : result (list B) :=
  match l with
  | [] => Ok []
  | a :: l' => v <- f a ;; vs <- mapM f l' ;; Ok (v :: vs)
  end.

(** ** Element-wise operations with broadcasting *)

Definition map2 {A B C} (f : A -> B -> C) (l1 : list A) (l2 : list B) : list C :=
  map (fun p => f (fst p) (snd p)) (combine l1 l2).

(** Shapes are compatible when they are equal or one of them is 1 (a
    scalar is compatible with everything). *)
Definition broadcast (f : num -> num -> num) (a c : ndarray) : result ndarray :=
  match a, c with
  | scalar p, scalar q => Ok (scalar (f p q))
  | scalar p, array l => Ok (array (map (f p) l))
  | array l, scalar q => Ok (array (map (fun z => f z q) l))
  | array l1, array l2 =>
      if length l1 =? length l2 then Ok (array (map2 f l1 l2))
      else match l1, l2 with
           | [p], _ => Ok (array (map (f p) l2))
           | _, [q] => Ok (array (map (fun z => f z q) l1))
           | _, _ => Raise (ShapeError (length l1) (length l2))
           end
  end.

(** The adjoint [g] of a broadcast result, summed back to the shape of the
    operand [like]. *)
Definition sum_to (g like : ndarray) : ndarray :=
  match like, g with
  | scalar _, _ => scalar (total g)
  | array l', array l => if length l =? length l' then g else array [nsum l]
  | array _, scalar _ => g
  end.

(** ** The symbolic graph *)

Inductive variable : Type := var_lr | var_w | var_b.
Inductive placeholder : Type := ph_x | ph_target.

Definition variable_eqb (u v : variable) : bool :=
  match u, v with
  | var_lr, var_lr | var_w, var_w | var_b, var_b => true
  | _, _ => false
  end.

Definition placeholder_eqb (p q : placeholder) : bool :=
  match p, q with
  | ph_x, ph_x | ph_target, ph_target => true
  | _, _ => false
  end.

(** The first seven constructors are the operations the notebook writes;
    the last five only occur in the graphs that [K.gradients] builds. *)
Inductive tensor : Type :=
| T_var (v : variable)
| T_ph (p : placeholder)
| T_mul (s t : tensor)
| T_add (s t : tensor)
| T_sub (s t : tensor)
| T_square (t : tensor)
| T_mean (t : tensor)
| T_const (q : Q)
| T_neg (t : tensor)
| T_ones_like (t : tensor)
| T_sum_to (g like : tensor)
| T_div_count (g t : tensor).

Declare Scope tensor_scope.
Delimit Scope tensor_scope with T.
Bind Scope tensor_scope with tensor.
Notation "s * t" := (T_mul s t) : tensor_scope.
Notation "s + t" := (T_add s t) : tensor_scope.
Notation "s - t" := (T_sub s t) : tensor_scope.

(** The values of the backend variables, and the values fed to the
    placeholders in one call. *)
Definition store : Type := variable -> ndarray.
Definition feed : Type := placeholder -> option ndarray.

Definition set_var (st : store) (v : variable) (a : ndarray) : store :=
  fun u => if variable_eqb u v then a else st u.

Fixpoint eval (st : store) (fd : feed) (t : tensor) : result ndarray :=
  match t with
  | T_var v => Ok (st v)
  | T_ph p => match fd p with Some a => Ok a | None => Raise FeedError end
  | T_mul s t => a <- eval st fd s ;; c <- eval st fd t ;; broadcast nmul a c
  | T_add s t => a <- eval st fd s ;; c <- eval st fd t ;; broadcast nadd a c
  | T_sub s t => a <- eval st fd s ;; c <- eval st fd t ;; broadcast nsub a c
  | T_square t => a <- eval st fd t ;; Ok (amap (fun z => nmul z z) a)
  | T_mean t => a <- eval st fd t ;; Ok (scalar (mean a))
  | T_const q => Ok (scalar (Fin q))
  | T_neg t => a <- eval st fd t ;; Ok (amap nneg a)
  | T_ones_like t => a <- eval st fd t ;; Ok (amap (fun _ => Fin 1) a)
  | T_sum_to g like =>
      a <- eval st fd g ;; c <- eval st fd like ;; Ok (sum_to a c)
  | T_div_count g t =>
      a <- eval st fd g ;; c <- eval st fd t ;;
      r <- broadcast (fun z _ => z) a c ;;
      Ok (amap (fun z => ndiv_count z (size c)) r)
  end.

(** ** Reverse-mode differentiation: [K.gradients]

    [grad t v adj] is the graph of the contribution to d/d[v] that flows
    through node [t] when [adj] is the adjoint of [t]. *)
Fixpoint grad (t : tensor) (v : variable) (adj : tensor) : tensor :=
  match t with
  | T_var u => if variable_eqb u v then T_sum_to adj (T_var u) else T_const 0
  | T_ph _ => T_const 0
  | T_mul s t =>
      T_add (grad s v (T_sum_to (T_mul adj t) s))
            (grad t v (T_sum_to (T_mul adj s) t))
  | T_add s t =>
      T_add (grad s v (T_sum_to adj s)) (grad t v (T_sum_to adj t))
  | T_sub s t =>
      T_add (grad s v (T_sum_to adj s)) (grad t v (T_sum_to (T_neg adj) t))
  | T_square t => grad t v (T_mul adj (T_mul (T_const 2) t))
  | T_mean t => grad t v (T_div_count adj t)
  | T_const _ => T_const 0
  | T_neg t => grad t v (T_neg adj)
  | T_ones_like _ => T_const 0
  | T_sum_to g _ => grad g v (T_mul adj (T_ones_like g))
  | T_div_count g t => grad g v (T_sum_to (T_div_count adj t) g)
  end.

Definition K_gradients (loss : tensor) (variables : list variable) : list tensor :=
  map (fun v => grad loss v (T_ones_like loss)) variables.

(** ** Compiled functions: [K.function] *)

Fixpoint bind_feed (inputs : list placeholder) (args : list ndarray) : feed :=
  match inputs, args with
  | p :: inputs', a :: args' =>
      fun q => if placeholder_eqb q p then Some a else bind_feed inputs' args' q
  | _, _ => fun _ => None
  end.

Definition assign_all (news : list (variable * ndarray)) (st : store) : store :=
  fold_left (fun s va => set_var s (fst va) (snd va)) news st.

(** A call returns its outcome and the store it leaves behind.  Every
    output and every new value is computed from the store before the
    call; the variables are written only when all of them are there.  An
    exception leaves the store as it was. *)
Definition K_function (inputs : list placeholder) (outputs : list tensor)
    (updates : list (variable * tensor)) (args : list ndarray) (st : store)
  : result (list ndarray) * store :=
  let fd := bind_feed inputs args in
  match mapM (eval st fd) outputs with
  | Raise e => (Raise e, st)
  | Ok outs =>
      match mapM (fun u => a <- eval st fd (snd u) ;; Ok (fst u, a)) updates with
      | Raise e => (Raise e, st)
      | Ok news => (Ok outs, assign_all news st)
      end
  end.

Definition K_eval (t : tensor) (st : store) : result ndarray :=
  eval st (fun _ => None) t.

(** ** The notebook *)

Module Notebook.

(* Placeholders and variables *)
Definition x : tensor := T_ph ph_x.
Definition target : tensor := T_ph ph_target.
Definition lr : tensor := T_var var_lr.
Definition w : tensor := T_var var_w.
Definition b : tensor := T_var var_b.

(** [lr = K.variable(0.1)]; [w] and [b] start from two draws [r1], [r2]
    of [np.random.rand()]. *)
Definition init_store (r1 r2 : Q) : store :=
  fun v =>
    match v with
    | var_lr => scalar (Fin (1 # 10))
    | var_w => scalar (Fin r1)
    | var_b => scalar (Fin r2)
    end.

(* Define model and loss *)
Definition y : tensor := (w * x + b)%T.
Definition loss : tensor := T_mean (T_square (y - target)).

Definition grads : list tensor := K_gradients loss [var_w; var_b].
Definition grads_0 : tensor := nth 0 grads (T_const 0).
Definition grads_1 : tensor := nth 1 grads (T_const 0).
Definition updates : list (variable * tensor) :=
  [(var_w, (w - lr * grads_0)%T); (var_b, (b - lr * grads_1)%T)].

Definition train : list ndarray -> store -> result (list ndarray) * store :=
  K_function [ph_x; ph_target] [loss] updates.

(* Generate data *)
Definition np_target (np_x : list Q) : list Q :=
  map (fun v => (96 # 100) * v + (24 # 100))%Q np_x.

(* Training *)

(** What the script holds while the loop runs: the backend variables,
    [loss_history], and the lines printed so far.  A printed line is
    kept as the three values that are formatted into it. *)
Record session : Type := {
  vars : store;
  loss_history : list ndarray;
  stdout : list (ndarray * ndarray * ndarray)
}.

Definition epoch_body (args : list ndarray) (epoch : nat) (s : session)
  : result unit * session :=
  let (r, st) := train args (vars s) in
  match r with
  | Raise e =>
      (Raise e, {| vars := st; loss_history := loss_history s; stdout := stdout s |})
  | Ok outs =>
      match nth_error outs 0 with
      | None =>
          (Raise IndexError,
           {| vars := st; loss_history := loss_history s; stdout := stdout s |})
      | Some current_loss =>
          let history := loss_history s ++ [current_loss] in
          if epoch mod 20 =? 0 then
            match K_eval w st, K_eval b st with
            | Ok vw, Ok vb =>
                (Ok tt, {| vars := st; loss_history := history;
                           stdout := stdout s ++ [(current_loss, vw, vb)] |})
            | Raise e, _ | _, Raise e =>
                (Raise e, {| vars := st; loss_history := history; stdout := stdout s |})
            end
          else (Ok tt, {| vars := st; loss_history := history; stdout := stdout s |})
      end
  end.

Fixpoint for_range (body : nat -> session -> result unit * session)
    (range : list nat) (s : session) : result unit * session :=
  match range with
  | [] => (Ok tt, s)
  | epoch :: rest =>
      match body epoch s with
      | (Ok _, s') => for_range body rest s'
      | (Raise e, s') => (Raise e, s')
      end
  end.

(** The loop, with the number of epochs ([range(200)] in the notebook)
    as a parameter. *)
Definition training (epochs : nat) (np_x np_target : ndarray) (st : store)
  : result unit * session :=
  for_range (epoch_body [np_x; np_target]) (seq 0 epochs)
    {| vars := st; loss_history := []; stdout := [] |}.

(** The whole notebook, from the two initial draws and the data draws. *)
Definition run (r1 r2 : Q) (np_x : list Q) : result unit * session :=
  training 200 (array (map Fin np_x)) (array (map Fin (np_target np_x)))
    (init_store r1 r2).

End Notebook.

(** ** Closed forms

    The quantities of the gradient-descent step as the description of the
    step states them (mean squared error, mean gradients), written
    directly over the data set as a list of pairs [(x_i, y_i)].  Nothing in
    the model above refers to them: the theorems compare the two. *)

Definition Qsum (l : list Q) : Q := fold_right Qplus 0%Q l.
Definition Qmean (l : list Q) : Q := (Qsum l / Qnat (length l))%Q.

Definition residual (wv bv : Q) (z : Q * Q) : Q := (wv * fst z + bv - snd z)%Q.

Definition mse (wv bv : Q) (l : list (Q * Q)) : Q :=
  Qmean (map (fun z => residual wv bv z * residual wv bv z)%Q l).

Definition grad_weight (wv bv : Q) (l : list (Q * Q)) : Q :=
  Qmean (map (fun z => 2 * residual wv bv z * fst z)%Q l).

Definition grad_bias (wv bv : Q) (l : list (Q * Q)) : Q :=
  Qmean (map (fun z => 2 * residual wv bv z)%Q l).

(** An array of finite numbers, given element-wise over the data set. *)
Definition lift (h : Q * Q -> Q) (l : list (Q * Q)) : ndarray :=
  array (map (fun z => Fin (h z)) l).

(** The feed of a call [train([np_x, np_target])] on the data set [l]. *)
Definition data_feed (l : list (Q * Q)) : feed :=
  bind_feed [ph_x; ph_target] [lift fst l; lift snd l].

(** The value of the loss node: the mean squared error, not-a-number on
    the empty data set. *)
Definition loss_value (wv bv : Q) (l : list (Q * Q)) : num :=
  match l with
  | [] => NaN
  | _ :: _ => Fin (mse wv bv l)
  end.

(** One step of gradient descent on the pair (weight, bias), and its
    iteration. *)
Definition gd_step (lrv : Q) (l : list (Q * Q)) (p : Q * Q) : Q * Q :=
  (fst p - lrv * grad_weight (fst p) (snd p) l,
   snd p - lrv * grad_bias (fst p) (snd p) l)%Q.

Fixpoint gd_iter (n : nat) (lrv : Q) (l : list (Q * Q)) (p : Q * Q) : Q * Q :=
  match n with
  | O => p
  | S k => gd_iter k lrv l (gd_step lrv l p)
  end.

(** Equality of run-time numbers, up to the representation of rationals. *)
Definition num_eq (a c : num) : Prop :=
  match a, c with
  | Fin p, Fin q => (p == q)%Q
  | NaN, NaN => True
  | _, _ => False
  end.

(** The store holds finite scalars, equal to the given rationals. *)
Definition holds (st : store) (lrv wv bv : Q) : Prop :=
  exists lr' w' b',
    st var_lr = scalar (Fin lr') /\ st var_w = scalar (Fin w')
    /\ st var_b = scalar (Fin b')
    /\ (lr' == lrv)%Q /\ (w' == wv)%Q /\ (b' == bv)%Q.

(** The store that [n] successive calls of [train] on [args] leave. *)
Fixpoint store_after (n : nat) (args : list ndarray) (st : store) : store :=
  match n with
  | O => st
  | S k => store_after k args (snd (Notebook.train args st))
  end.

(** Squared distance of the pair (weight, bias) from the pair [(ws, bs)]. *)
Definition dist2 (ws bs : Q) (p : Q * Q) : Q :=
  ((fst p - ws) * (fst p - ws) + (snd p - bs) * (snd p - bs))%Q.

(** [k] multiplied [n] times by [rho]. *)
Fixpoint decay (rho : Q) (n : nat) (k : Q) : Q :=
  match n with
  | O => k
  | S n' => decay rho n' (k * rho)%Q
  end.

(** The evenly spaced inputs [0, 1/n, ..., (n-1)/n]. *)
Definition grid (n : nat) : list Q :=
  map (fun i => Z.of_nat i # Pos.of_nat n) (seq 0 n).

(** ** Further vocabulary: errors, feeds, printed lines, run-time numbers *)

(** The exceptions that come from broadcasting. *)
Definition is_shape_error (e : exn) : Prop :=
  match e with
  | ShapeError _ _ => True
  | _ => False
  end.

(** A feed that binds every placeholder. *)
Definition fully_fed (fd : feed) : Prop := forall p, fd p <> None.

(** The progress lines of [n] epochs numbered from [k], started in the
    store [st], in terms of the losses [history] of these epochs: one line
    for each epoch number divisible by 20, with the loss of that epoch and
    the weight and bias that its call leaves. *)
Definition progress_lines (args : list ndarray) (st : store)
    (history : list ndarray) (k n : nat) : list (ndarray * ndarray * ndarray) :=
  map (fun e => (nth (e - k) history (scalar NaN),
                 store_after (S (e - k)) args st var_w,
                 store_after (S (e - k)) args st var_b))
      (filter (fun e => e mod 20 =? 0) (seq k n)).

(** An array given element-wise over a list of pairs of run-time numbers. *)
Definition nlift (h : num * num -> num) (l : list (num * num)) : ndarray :=
  array (map h l).

(** The residual of one pair, as the graph computes it. *)
Definition nresidual (wv bv : num) (z : num * num) : num :=
  nsub (nadd (nmul wv (fst z)) bv) (snd z).

(** Not-a-number has entered: through a parameter or through the data. *)
Definition poisoned (wv bv : num) (l : list (num * num)) : Prop :=
  wv = NaN \/ bv = NaN \/ exists z, In z l /\ (fst z = NaN \/ snd z = NaN).

(** The array with the one finite element [a]. *)
Definition single (a : Q) : ndarray := array [Fin a].

(** ** Machine numbers: the graph on binary32

    The backend computes in its default float type, IEEE 754 binary32,
    rounding every operation to nearest, ties to even; numpy generates the
    data in binary64, and the arrays are cast to binary32 when they are
    fed.  [Float64] and [Float32] give the operations that meaning, and
    [Float32] evaluates the same graph, with the same gradient graphs and
    the same loop, on those numbers.  A reduction adds the elements in
    order, starting from zero; the backend does not promise an order. *)

Module Float64.

Definition prec : Z := 53.
Definition emax : Z := 1024.

Definition of_Z (z : Z) : spec_float := binary_normalize prec emax z 0 false.
Definition add : spec_float -> spec_float -> spec_float := SFadd prec emax.
Definition mul : spec_float -> spec_float -> spec_float := SFmul prec emax.
Definition div : spec_float -> spec_float -> spec_float := SFdiv prec emax.

(** The value of a decimal literal [n / d], as Python reads it. *)
Definition literal (n d : Z) : spec_float := div (of_Z n) (of_Z d).

End Float64.

Module Float32.

Definition prec : Z := 24.
Definition emax : Z := 128.

Definition float32 : Type := spec_float.

Definition of_Z (z : Z) : float32 := binary_normalize prec emax z 0 false.
Definition of_nat (n : nat) : float32 := of_Z (Z.of_nat n).

Definition fadd : float32 -> float32 -> float32 := SFadd prec emax.
Definition fsub : float32 -> float32 -> float32 := SFsub prec emax.
Definition fmul : float32 -> float32 -> float32 := SFmul prec emax.
Definition fdiv : float32 -> float32 -> float32 := SFdiv prec emax.
Definition fneg : float32 -> float32 := SFopp.

Definition zero : float32 := S754_zero false.
Definition one : float32 := of_Z 1.

(** The cast of a binary64 number, or of any binary fraction. *)
Definition cast (v : spec_float) : float32 :=
  match v with
  | S754_finite s m e => binary_round prec emax s m e
  | _ => v
  end.

(** A constant of the graph. *)
Definition of_Q (q : Q) : float32 := fdiv (of_Z (Qnum q)) (of_Z (Zpos (Qden q))).

Definition fsum (l : list float32) : float32 := fold_left fadd l zero.

(* Arrays of rank 0 and 1 *)

Inductive ndarray : Type :=
| scalar (a : float32)
| array (l : list float32).

Definition size (a : ndarray) : nat :=
  match a with
  | scalar _ => 1
  | array l => length l
  end.

Definition amap (f : float32 -> float32) (a : ndarray) : ndarray :=
  match a with
  | scalar z => scalar (f z)
  | array l => array (map f l)
  end.

Definition total (a : ndarray) : float32 :=
  match a with
  | scalar z => z
  | array l => fsum l
  end.

(** Total over size; the empty array gives 0/0, not-a-number. *)
Definition mean (a : ndarray) : float32 := fdiv (total a) (of_nat (size a)).

(* Element-wise operations with broadcasting *)

Definition broadcast (f : float32 -> float32 -> float32) (a c : ndarray)
  : result ndarray :=
  match a, c with
  | scalar p, scalar q => Ok (scalar (f p q))
  | scalar p, array l => Ok (array (map (f p) l))
  | array l, scalar q => Ok (array (map (fun z => f z q) l))
  | array l1, array l2 =>
      if length l1 =? length l2 then Ok (array (map2 f l1 l2))
      else match l1, l2 with
           | [p], _ => Ok (array (map (f p) l2))
           | _, [q] => Ok (array (map (fun z => f z q) l1))
           | _, _ => Raise (ShapeError (length l1) (length l2))
           end
  end.

Definition sum_to (g like : ndarray) : ndarray :=
  match like, g with
  | scalar _, _ => scalar (total g)
  | array l', array l => if length l =? length l' then g else array [fsum l]
  | array _, scalar _ => g
  end.

(* The graph *)

Definition store : Type := variable -> ndarray.
Definition feed : Type := placeholder -> option ndarray.

Definition set_var (st : store) (v : variable) (a : ndarray) : store :=
  fun u => if variable_eqb u v then a else st u.

Fixpoint eval (st : store) (fd : feed) (t : tensor) : result ndarray :=
  match t with
  | T_var v => Ok (st v)
  | T_ph p => match fd p with Some a => Ok a | None => Raise FeedError end
  | T_mul s t => a <- eval st fd s ;; c <- eval st fd t ;; broadcast fmul a c
  | T_add s t => a <- eval st fd s ;; c <- eval st fd t ;; broadcast fadd a c
  | T_sub s t => a <- eval st fd s ;; c <- eval st fd t ;; broadcast fsub a c
  | T_square t => a <- eval st fd t ;; Ok (amap (fun z => fmul z z) a)
  | T_mean t => a <- eval st fd t ;; Ok (scalar (mean a))
  | T_const q => Ok (scalar (of_Q q))
  | T_neg t => a <- eval st fd t ;; Ok (amap fneg a)
  | T_ones_like t => a <- eval st fd t ;; Ok (amap (fun _ => one) a)
  | T_sum_to g like =>
      a <- eval st fd g ;; c <- eval st fd like ;; Ok (sum_to a c)
  | T_div_count g t =>
      a <- eval st fd g ;; c <- eval st fd t ;;
      r <- broadcast (fun z _ => z) a c ;;
      Ok (amap (fun z => fdiv z (of_nat (size c))) r)
  end.

(* Compiled functions *)

Fixpoint bind_feed (inputs : list placeholder) (args : list ndarray) : feed :=
  match inputs, args with
  | p :: inputs', a :: args' =>
      fun q => if placeholder_eqb q p then Some a else bind_feed inputs' args' q
  | _, _ => fun _ => None
  end.

Definition assign_all (news : list (variable * ndarray)) (st : store) : store :=
  fold_left (fun s va => set_var s (fst va) (snd va)) news st.

Definition K_function (inputs : list placeholder) (outputs : list tensor)
    (updates : list (variable * tensor)) (args : list ndarray) (st : store)
  : result (list ndarray) * store :=
  let fd := bind_feed inputs args in
  match mapM (eval st fd) outputs with
  | Raise e => (Raise e, st)
  | Ok outs =>
      match mapM (fun u => a <- eval st fd (snd u) ;; Ok (fst u, a)) updates with
      | Raise e => (Raise e, st)
      | Ok news => (Ok outs, assign_all news st)
      end
  end.

Definition K_eval (t : tensor) (st : store) : result ndarray :=
  eval st (fun _ => None) t.

(* The notebook *)

(** [K.variable] casts its initial value: the literal [0.1] and the two
    binary64 draws. *)
Definition init_store (r1 r2 : spec_float) : store :=
  fun v =>
    match v with
    | var_lr => scalar (cast (Float64.literal 1 10))
    | var_w => scalar (cast r1)
    | var_b => scalar (cast r2)
    end.

Definition train : list ndarray -> store -> result (list ndarray) * store :=
  K_function [ph_x; ph_target] [Notebook.loss] Notebook.updates.

(** [np_target = 0.96*np_x + 0.24], in binary64. *)
Definition np_target (np_x : list spec_float) : list spec_float :=
  map (fun v => Float64.add (Float64.mul (Float64.literal 96 100) v)
                            (Float64.literal 24 100)) np_x.

Record session : Type := {
  vars : store;
  loss_history : list ndarray;
  stdout : list (ndarray * ndarray * ndarray)
}.

Definition epoch_body (args : list ndarray) (epoch : nat) (s : session)
  : result unit * session :=
  let (r, st) := train args (vars s) in
  match r with
  | Raise e =>
      (Raise e, {| vars := st; loss_history := loss_history s; stdout := stdout s |})
  | Ok outs =>
      match nth_error outs 0 with
      | None =>
          (Raise IndexError,
           {| vars := st; loss_history := loss_history s; stdout := stdout s |})
      | Some current_loss =>
          let history := loss_history s ++ [current_loss] in
          if epoch mod 20 =? 0 then
            match K_eval Notebook.w st, K_eval Notebook.b st with
            | Ok vw, Ok vb =>
                (Ok tt, {| vars := st; loss_history := history;
                           stdout := stdout s ++ [(current_loss, vw, vb)] |})
            | Raise e, _ | _, Raise e =>
                (Raise e, {| vars := st; loss_history := history; stdout := stdout s |})
            end
          else (Ok tt, {| vars := st; loss_history := history; stdout := stdout s |})
      end
  end.

Fixpoint for_range (body : nat -> session -> result unit * session)
    (range : list nat) (s : session) : result unit * session :=
  match range with
  | [] => (Ok tt, s)
  | epoch :: rest =>
      match body epoch s with
      | (Ok _, s') => for_range body rest s'
      | (Raise e, s') => (Raise e, s')
      end
  end.

Definition training (epochs : nat) (np_x np_target : ndarray) (st : store)
  : result unit * session :=
  for_range (epoch_body [np_x; np_target]) (seq 0 epochs)
    {| vars := st; loss_history := []; stdout := [] |}.

(** The whole notebook on binary32: the arrays are cast when they are
    fed. *)
Definition run (r1 r2 : spec_float) (np_x : list spec_float)
  : result unit * session :=
  training 200 (array (map cast np_x)) (array (map cast (np_target np_x)))
    (init_store r1 r2).

End Float32.

(** A binary32 number that is not negative: its sign bit is clear, or it
    is not a number at all. *)
Definition sign_clear (v : spec_float) : Prop :=
  match v with
  | S754_nan => True
  | S754_zero s | S754_infinity s | S754_finite s _ _ => s = false
  end.

(** A recorded loss that is not-a-number or at least zero. *)
Definition never_negative (a : Float32.ndarray) : Prop :=
  match a with
  | Float32.scalar v => v = S754_nan \/ SFleb Float32.zero v = true
  | Float32.array _ => False
  end.

(** The inputs [0, 1/n, ..., (n-1)/n] as binary64 quotients. *)
Definition grid64 (n : nat) : list spec_float :=
  map (fun i => Float64.div (Float64.of_Z (Z.of_nat i)) (Float64.of_Z (Z.of_nat n)))
      (seq 0 n).

(** A binary32 result with the sign [s], or not a number. *)
Definition sign_is (s : bool) (v : spec_float) : Prop :=
  match v with
  | S754_nan => True
  | S754_zero s' | S754_infinity s' | S754_finite s' _ _ => s' = s
  end.

(** An array given element-wise over a list of pairs of binary32
    numbers. *)
Definition flift (h : spec_float * spec_float -> spec_float)
    (l : list (spec_float * spec_float)) : Float32.ndarray :=
  Float32.array (map h l).

(** The store holds these three scalars. *)
Definition fholds (st : Float32.store) (lrv wv bv : spec_float) : Prop :=
  st var_lr = Float32.scalar lrv /\ st var_w = Float32.scalar wv
  /\ st var_b = Float32.scalar bv.

(** The residual of one pair, and its adjoint in the gradient graph,
    operation by operation. *)
Definition fresidual (wv bv : spec_float) (z : spec_float * spec_float) : spec_float :=
  Float32.fsub (Float32.fadd (Float32.fmul wv (fst z)) bv) (snd z).

Definition fadjoint (c wv bv : spec_float) (z : spec_float * spec_float) : spec_float :=
  Float32.fmul c (Float32.fmul (Float32.of_Z 2) (fresidual wv bv z)).

(** One pass over the data: the three running sums of a call. *)
Definition fsums (c wv bv : spec_float) (l : list (spec_float * spec_float))
  : spec_float * spec_float * spec_float :=
  fold_left
    (fun acc z =>
       let r := fresidual wv bv z in
       let a := Float32.fmul c (Float32.fmul (Float32.of_Z 2) r) in
       (Float32.fadd (fst (fst acc)) (Float32.fmul r r),
        Float32.fadd (snd (fst acc)) (Float32.fmul a (fst z)),
        Float32.fadd (snd acc) a))
    l (Float32.zero, Float32.zero, Float32.zero).

(** The loss a call returns and the weight and bias it leaves. *)
Definition fepoch (lrv : spec_float) (l : list (spec_float * spec_float))
    (p : spec_float * spec_float) : spec_float * (spec_float * spec_float) :=
  let n := Float32.of_nat (length l) in
  let '(sq, gw, gb) := fsums (Float32.fdiv Float32.one n) (fst p) (snd p) l in
  let z := Float32.zero in
  (Float32.fdiv sq n,
   (Float32.fsub (fst p)
      (Float32.fmul lrv (Float32.fadd (Float32.fadd (Float32.fadd gw z) z) z)),
    Float32.fsub (snd p)
      (Float32.fmul lrv (Float32.fadd (Float32.fadd (Float32.fadd z z) gb) z)))).

Fixpoint fiter (n : nat) (lrv : spec_float) (l : list (spec_float * spec_float))
    (p : spec_float * spec_float) : spec_float * spec_float :=
  match n with
  | O => p
  | S k => fiter k lrv l (snd (fepoch lrv l p))
  end.

(** The losses of [n] successive calls, the first one made at [p]. *)
Fixpoint flosses (n : nat) (lrv : spec_float) (l : list (spec_float * spec_float))
    (p : spec_float * spec_float) : list spec_float :=
  match n with
  | O => []
  | S k => let r := fepoch lrv l p in fst r :: flosses k lrv l (snd r)
  end.

(** A binary64 draw of [np.random.rand]: a number in [0, 1). *)
Definition unit_draw (v : spec_float) : bool :=
  SFleb (Float64.of_Z 0) v && SFltb v (Float64.of_Z 1).

(** The loss recorded in epoch [S i] is greater than that of epoch [i]. *)
Definition rises_at (history : list Float32.ndarray) (i : nat) : Prop :=
  exists a c,
    nth_error history i = Some (Float32.scalar a)
    /\ nth_error history (S i) = Some (Float32.scalar c)
    /\ SFltb a c = true.

(** The evenly spaced data set of 1000 points as the loop receives it:
    pairs of binary32 numbers, inputs and targets cast when fed. *)
Definition grid_data : list (spec_float * spec_float) :=
  combine (map Float32.cast (grid64 1000))
          (map Float32.cast (Float32.np_target (grid64 1000))).

(** ** Arrays of finite numbers under the backend operations *)

Section Lifted.

Variable l : list (Q * Q).

Lemma broadcast_lift_lift (f : Q -> Q -> Q) (h1 h2 : Q * Q -> Q) :
  broadcast (num_lift2 f) (lift h1 l) (lift h2 l)
  = Ok (lift (fun z => f (h1 z) (h2 z)) l).
Proof.
  unfold broadcast, lift. rewrite !length_map, Nat.eqb_refl.
  do 2 f_equal. unfold map2.
  induction l as [|z l' IH]; simpl; [reflexivity | now rewrite IH].
Qed.

Lemma broadcast_scalar_lift (f : Q -> Q -> Q) (a : Q) (h : Q * Q -> Q) :
  broadcast (num_lift2 f) (scalar (Fin a)) (lift h l)
  = Ok (lift (fun z => f a (h z)) l).
Proof. unfold broadcast, lift. now rewrite map_map. Qed.

Lemma broadcast_lift_scalar (f : Q -> Q -> Q) (h : Q * Q -> Q) (a : Q) :
  broadcast (num_lift2 f) (lift h l) (scalar (Fin a))
  = Ok (lift (fun z => f (h z) a) l).
Proof. unfold broadcast, lift. now rewrite map_map. Qed.

Lemma broadcast_scalar_scalar (f : Q -> Q -> Q) (a c : Q) :
  broadcast (num_lift2 f) (scalar (Fin a)) (scalar (Fin c)) = Ok (scalar (Fin (f a c))).
Proof. reflexivity. Qed.

Lemma amap_square_lift (h : Q * Q -> Q) :
  amap (fun z => nmul z z) (lift h l) = lift (fun z => h z * h z)%Q l.
Proof. unfold amap, lift. now rewrite map_map. Qed.

Lemma amap_neg_lift (h : Q * Q -> Q) :
  amap nneg (lift h l) = lift (fun z => - h z)%Q l.
Proof. unfold amap, lift. now rewrite map_map. Qed.

Lemma amap_ones_lift (h : Q * Q -> Q) :
  amap (fun _ => Fin 1) (lift h l) = lift (fun _ => 1%Q) l.
Proof. unfold amap, lift. now rewrite map_map. Qed.

Lemma total_lift (h : Q * Q -> Q) : total (lift h l) = Fin (Qsum (map h l)).
Proof.
  unfold total, lift, nsum, Qsum.
  induction l as [|z l' IH]; simpl; [reflexivity | now rewrite IH].
Qed.

Lemma size_lift (h : Q * Q -> Q) : size (lift h l) = length l.
Proof. unfold size, lift. apply length_map. Qed.

Lemma mean_lift (h : Q * Q -> Q) :
  mean (lift h l)
  = match l with [] => NaN | _ :: _ => Fin (Qmean (map h l)) end.
Proof.
  unfold mean, Qmean. rewrite total_lift, size_lift, length_map.
  destruct l; reflexivity.
Qed.

Lemma sum_to_lift_scalar (h : Q * Q -> Q) (a : num) :
  sum_to (lift h l) (scalar a) = scalar (Fin (Qsum (map h l))).
Proof. unfold sum_to. now rewrite total_lift. Qed.

Lemma sum_to_lift_lift (h h' : Q * Q -> Q) :
  sum_to (lift h l) (lift h' l) = lift h l.
Proof. unfold sum_to, lift. now rewrite !length_map, Nat.eqb_refl. Qed.

Lemma div_count_scalar_lift (g : Q) (h : Q * Q -> Q) :
  (r <- broadcast (fun z _ => z) (scalar (Fin g)) (lift h l) ;;
   Ok (amap (fun z => ndiv_count z (size (lift h l))) r))
  = Ok (lift (fun _ => g / Qnat (length l))%Q l).
Proof.
  rewrite size_lift. unfold broadcast, lift, amap, rbind. rewrite !map_map.
  destruct l; reflexivity.
Qed.

End Lifted.

(** The two one-dimensional inputs of equal length are the two columns of
    the list of pairs. *)
Lemma lift_fst_combine (xs ys : list Q) :
  length xs = length ys -> lift fst (combine xs ys) = array (map Fin xs).
Proof.
  unfold lift. intros H. f_equal. revert ys H.
  induction xs as [|a xs IH]; intros [|c ys] H; simpl in *; try discriminate;
    [reflexivity | f_equal; apply IH; congruence].
Qed.

Lemma lift_snd_combine (xs ys : list Q) :
  length xs = length ys -> lift snd (combine xs ys) = array (map Fin ys).
Proof.
  unfold lift. intros H. f_equal. revert ys H.
  induction xs as [|a xs IH]; intros [|c ys] H; simpl in *; try discriminate;
    [reflexivity | f_equal; apply IH; congruence].
Qed.

(** ** Sums of rationals over the data set *)

Lemma Qsq_nonneg (q : Q) : (0 <= q * q)%Q.
Proof. nra. Qed.

Lemma Qnat_succ (n : nat) : (Qnat (S n) == Qnat n + 1)%Q.
Proof.
  unfold Qnat. rewrite Nat2Z.inj_succ, <- Z.add_1_r, inject_Z_plus. reflexivity.
Qed.

Lemma Qnat_pos (n : nat) : (0 < n)%nat -> (0 < Qnat n)%Q.
Proof.
  intros H. unfold Qnat, Qlt. simpl. lia.
Qed.

Section Sums.

Local Open Scope Q_scope.

Variable A : Type.
Implicit Types (f g : A -> Q) (l : list A).

Lemma Qsum_map_ext f g l :
  (forall z, In z l -> f z == g z) -> Qsum (map f l) == Qsum (map g l).
Proof.
  induction l as [|z l' IH]; simpl; intros H; [reflexivity|].
  rewrite (H z), IH by auto. reflexivity.
Qed.

Lemma Qsum_map_le f g l :
  (forall z, In z l -> f z <= g z) -> Qsum (map f l) <= Qsum (map g l).
Proof.
  induction l as [|z l' IH]; simpl; intros H; [lra|].
  assert (f z <= g z) by auto. assert (Qsum (map f l') <= Qsum (map g l')) by auto.
  lra.
Qed.

Lemma Qsum_map_scal (c : Q) f l :
  Qsum (map (fun z => c * f z) l) == c * Qsum (map f l).
Proof. induction l as [|z l' IH]; simpl; [ring | rewrite IH; ring]. Qed.

Lemma Qsum_map_const (c : Q) l :
  Qsum (map (fun _ => c) l) == c * Qnat (length l).
Proof.
  induction l as [|z l' IH]; [unfold Qnat, Qsum; cbn [map fold_right length Z.of_nat]; ring|].
  cbn [map Qsum fold_right length]. fold (Qsum (map (fun _ => c) l')).
  rewrite IH, Qnat_succ. ring.
Qed.

Lemma Qsum_map_nonneg f l :
  (forall z, In z l -> 0 <= f z) -> 0 <= Qsum (map f l).
Proof.
  induction l as [|z l' IH]; simpl; intros H; [lra|].
  assert (0 <= f z) by auto. assert (0 <= Qsum (map f l')) by auto. lra.
Qed.

End Sums.



(** ** One call of [train] on finite data *)

Section Step.

Local Open Scope Q_scope.

Variables (l : list (Q * Q)) (st : store) (lrv wv bv : Q).
Hypothesis Hlr : st var_lr = scalar (Fin lrv).
Hypothesis Hw : st var_w = scalar (Fin wv).
Hypothesis Hb : st var_b = scalar (Fin bv).

Ltac unfold_graph :=
  unfold Notebook.grads_0, Notebook.grads_1, Notebook.grads, K_gradients,
    Notebook.loss, Notebook.y, Notebook.w, Notebook.x, Notebook.b,
    Notebook.lr, Notebook.target, data_feed;
  cbn [map nth].

Ltac sym_eval :=
  repeat (cbn [eval rbind bind_feed placeholder_eqb variable_eqb grad amap
                 sum_to total];
          unfold nmul, nadd, nsub;
          rewrite ?Hlr, ?Hw, ?Hb, ?broadcast_lift_lift, ?broadcast_scalar_lift,
            ?broadcast_lift_scalar, ?broadcast_scalar_scalar,
            ?amap_square_lift, ?amap_neg_lift, ?amap_ones_lift,
            ?sum_to_lift_scalar, ?sum_to_lift_lift, ?div_count_scalar_lift,
            ?total_lift).

Lemma eval_loss :
  eval st (data_feed l) Notebook.loss = Ok (scalar (loss_value wv bv l)).
Proof.
  unfold_graph. sym_eval. rewrite mean_lift. reflexivity.
Qed.

Lemma eval_grads_0 :
  exists g, eval st (data_feed l) Notebook.grads_0 = Ok (scalar (Fin g))
            /\ g == grad_weight wv bv l.
Proof.
  unfold_graph. sym_eval. eexists; split; [reflexivity|].
  unfold grad_weight, Qmean, residual.
  rewrite Qsum_map_ext
    with (g := fun z => (1 / Qnat (length l)) * (2 * (wv * fst z + bv - snd z) * fst z))
    by (intros; ring).
  rewrite Qsum_map_scal, length_map. unfold Qdiv. ring.
Qed.

Lemma eval_grads_1 :
  exists g, eval st (data_feed l) Notebook.grads_1 = Ok (scalar (Fin g))
            /\ g == grad_bias wv bv l.
Proof.
  unfold_graph. sym_eval. eexists; split; [reflexivity|].
  unfold grad_bias, Qmean, residual.
  rewrite Qsum_map_scal, length_map. unfold Qdiv. ring.
Qed.

Lemma eval_new_w :
  exists w', eval st (data_feed l) (Notebook.w - Notebook.lr * Notebook.grads_0)%T
             = Ok (scalar (Fin w'))
             /\ w' == wv - lrv * grad_weight wv bv l.
Proof.
  destruct eval_grads_0 as (g & Hg & Eg).
  cbn [eval]. rewrite Hg. unfold Notebook.w, Notebook.lr. cbn [eval rbind].
  rewrite Hlr, Hw. cbn. eexists; split; [reflexivity|]. now rewrite Eg.
Qed.

Lemma eval_new_b :
  exists b', eval st (data_feed l) (Notebook.b - Notebook.lr * Notebook.grads_1)%T
             = Ok (scalar (Fin b'))
             /\ b' == bv - lrv * grad_bias wv bv l.
Proof.
  destruct eval_grads_1 as (g & Hg & Eg).
  cbn [eval]. rewrite Hg. unfold Notebook.b, Notebook.lr. cbn [eval rbind].
  rewrite Hlr, Hb. cbn. eexists; split; [reflexivity|]. now rewrite Eg.
Qed.

(** The call succeeds, returns the loss at the parameters it was called
    with, leaves [lr] alone and moves [w] and [b] by the gradient step. *)
Lemma train_data :
  exists st',
    Notebook.train [lift fst l; lift snd l] st
    = (Ok [scalar (loss_value wv bv l)], st')
    /\ st' var_lr = st var_lr
    /\ (exists w', st' var_w = scalar (Fin w')
                   /\ w' == wv - lrv * grad_weight wv bv l)
    /\ (exists b', st' var_b = scalar (Fin b')
                   /\ b' == bv - lrv * grad_bias wv bv l).
Proof.
  destruct eval_new_w as (w' & Hw' & Ew), eval_new_b as (b' & Hb' & Eb).
  unfold Notebook.train, K_function, Notebook.updates. cbn [mapM fst snd].
  fold (data_feed l). rewrite eval_loss, Hw', Hb'. cbn [rbind].
  eexists; split; [reflexivity|]. cbn.
  repeat split; eauto.
Qed.

End Step.

(** ** The closed forms respect equality of rationals *)

Section Compat.

Local Open Scope Q_scope.

Variables (l : list (Q * Q)) (w1 w2 b1 b2 : Q).
Hypothesis Ew : w1 == w2.
Hypothesis Eb : b1 == b2.

Lemma residual_compat z : residual w1 b1 z == residual w2 b2 z.
Proof. unfold residual. now rewrite Ew, Eb. Qed.

Lemma mse_compat : mse w1 b1 l == mse w2 b2 l.
Proof.
  unfold mse, Qmean. rewrite !length_map.
  rewrite Qsum_map_ext with (g := fun z => residual w2 b2 z * residual w2 b2 z);
    [reflexivity|].
  intros z _. now rewrite residual_compat.
Qed.

Lemma grad_weight_compat : grad_weight w1 b1 l == grad_weight w2 b2 l.
Proof.
  unfold grad_weight, Qmean. rewrite !length_map.
  rewrite Qsum_map_ext with (g := fun z => 2 * residual w2 b2 z * fst z);
    [reflexivity|].
  intros z _. now rewrite residual_compat.
Qed.

Lemma grad_bias_compat : grad_bias w1 b1 l == grad_bias w2 b2 l.
Proof.
  unfold grad_bias, Qmean. rewrite !length_map.
  rewrite Qsum_map_ext with (g := fun z => 2 * residual w2 b2 z);
    [reflexivity|].
  intros z _. now rewrite residual_compat.
Qed.

Lemma loss_value_compat : num_eq (loss_value w1 b1 l) (loss_value w2 b2 l).
Proof.
  unfold loss_value. destruct l eqn:E; [exact I|]. rewrite <- E. apply mse_compat.
Qed.

End Compat.

(** One call of [train] from a store that holds finite parameters. *)
Lemma train_holds (l : list (Q * Q)) (st : store) (lrv wv bv : Q) :
  holds st lrv wv bv ->
  exists c st',
    Notebook.train [lift fst l; lift snd l] st = (Ok [scalar c], st')
    /\ num_eq c (loss_value wv bv l)
    /\ holds st' lrv (fst (gd_step lrv l (wv, bv))) (snd (gd_step lrv l (wv, bv))).
Proof.
  intros (lr' & w' & b' & Hlr & Hw & Hb & Elr & Ew & Eb).
  destruct (train_data l st Hlr Hw Hb)
    as (st' & Ht & Hlr' & (w'' & Hw' & Ew') & (b'' & Hb' & Eb')).
  exists (loss_value w' b' l), st'. split; [exact Ht|]. split.
  - now apply loss_value_compat.
  - exists lr', w'', b''. rewrite Hlr'. repeat split; auto; cbn [gd_step fst snd].
    + rewrite Ew', Elr. now rewrite (grad_weight_compat l Ew Eb), Ew.
    + rewrite Eb', Elr. now rewrite (grad_bias_compat l Ew Eb), Eb.
Qed.

(** ** The training loop *)

Section Loop.

Variable args : list ndarray.
Variable P : store -> Prop.
Hypothesis P_step :
  forall st, P st -> exists c st', Notebook.train args st = (Ok [c], st') /\ P st'.

Lemma epoch_body_ok (epoch : nat) (s : Notebook.session) :
  P (Notebook.vars s) ->
  exists c st' out,
    Notebook.train args (Notebook.vars s) = (Ok [c], st') /\ P st'
    /\ Notebook.epoch_body args epoch s
       = (Ok tt, {| Notebook.vars := st';
                    Notebook.loss_history := Notebook.loss_history s ++ [c];
                    Notebook.stdout := out |}).
Proof.
  intros H. destruct (P_step H) as (c & st' & Ht & HP).
  unfold Notebook.epoch_body. rewrite Ht. cbn [nth_error].
  destruct (epoch mod 20 =? 0); cbn; eauto 7.
Qed.

Lemma for_range_ok (n : nat) :
  forall (k : nat) (s : Notebook.session),
    P (Notebook.vars s) ->
    exists s',
      Notebook.for_range (Notebook.epoch_body args) (seq k n) s = (Ok tt, s')
      /\ Notebook.vars s' = store_after n args (Notebook.vars s)
      /\ P (Notebook.vars s')
      /\ exists ls,
           Notebook.loss_history s' = Notebook.loss_history s ++ ls
           /\ length ls = n
           /\ forall i, i < n ->
                exists c, nth_error ls i = Some c
                          /\ fst (Notebook.train args
                                    (store_after i args (Notebook.vars s)))
                             = Ok [c].
Proof.
  induction n as [|n IH]; intros k s H.
  - exists s. cbn. repeat split; auto. exists []. rewrite app_nil_r.
    repeat split; auto. intros i Hi. lia.
  - destruct (epoch_body_ok k s H) as (c & st' & out & Ht & HP & Hbody).
    cbn [seq Notebook.for_range]. rewrite Hbody.
    destruct (IH (S k)
                {| Notebook.vars := st';
                   Notebook.loss_history := Notebook.loss_history s ++ [c];
                   Notebook.stdout := out |} HP)
      as (s' & Hfor & Hvars & HP' & ls & Hls & Hlen & Hnth).
    cbn [Notebook.vars Notebook.loss_history] in *.
    exists s'. split; [exact Hfor|]. split.
    { cbn [store_after]. now rewrite Ht. }
    split; [exact HP'|].
    exists (c :: ls). split; [now rewrite Hls, <- app_assoc|].
    split; [cbn; lia|].
    intros [|i] Hi.
    + exists c. cbn. now rewrite Ht.
    + destruct (Hnth i ltac:(lia)) as (c' & Hc' & Hl).
      exists c'. cbn [nth_error store_after]. now rewrite Ht.
Qed.

End Loop.

(** ** The loop on finite data *)

Section LoopOnData.

Variables (l : list (Q * Q)) (lrv : Q).

Lemma gd_iter_pair (n : nat) (p : Q * Q) :
  gd_iter n lrv l (fst p, snd p) = gd_iter n lrv l p.
Proof. now destruct p. Qed.

Lemma store_after_holds (n : nat) :
  forall (st : store) (wv bv : Q),
    holds st lrv wv bv ->
    holds (store_after n [lift fst l; lift snd l] st) lrv
      (fst (gd_iter n lrv l (wv, bv))) (snd (gd_iter n lrv l (wv, bv))).
Proof.
  induction n as [|n IH]; intros st wv bv H; [exact H|].
  destruct (train_holds l H) as (c & st' & Ht & _ & H').
  cbn [store_after gd_iter]. rewrite Ht. cbn [snd].
  rewrite <- gd_iter_pair. now apply IH.
Qed.

Lemma loss_after (i : nat) (st : store) (wv bv : Q) :
  holds st lrv wv bv ->
  exists c,
    fst (Notebook.train [lift fst l; lift snd l]
           (store_after i [lift fst l; lift snd l] st))
    = Ok [scalar c]
    /\ num_eq c (loss_value (fst (gd_iter i lrv l (wv, bv)))
                   (snd (gd_iter i lrv l (wv, bv))) l).
Proof.
  intros H. apply (store_after_holds i) in H.
  destruct (train_holds l H) as (c & st' & Ht & Hc & _).
  exists c. now rewrite Ht.
Qed.

(** The loop runs to its end; the store it leaves and the losses it has
    recorded are those of the iterated gradient step. *)
Lemma training_on_data (epochs : nat) (st : store) (wv bv : Q) :
  holds st lrv wv bv ->
  exists s,
    Notebook.training epochs (lift fst l) (lift snd l) st = (Ok tt, s)
    /\ Notebook.vars s = store_after epochs [lift fst l; lift snd l] st
    /\ holds (Notebook.vars s) lrv
         (fst (gd_iter epochs lrv l (wv, bv))) (snd (gd_iter epochs lrv l (wv, bv)))
    /\ length (Notebook.loss_history s) = epochs
    /\ forall i, i < epochs ->
         exists c,
           nth_error (Notebook.loss_history s) i = Some (scalar c)
           /\ fst (Notebook.train [lift fst l; lift snd l]
                     (store_after i [lift fst l; lift snd l] st))
              = Ok [scalar c]
           /\ num_eq c (loss_value (fst (gd_iter i lrv l (wv, bv)))
                          (snd (gd_iter i lrv l (wv, bv))) l).
Proof.
  intros H. unfold Notebook.training.
  assert (Hstep : forall st0, (exists w0 b0, holds st0 lrv w0 b0) ->
            exists c st', Notebook.train [lift fst l; lift snd l] st0 = (Ok [c], st')
                          /\ exists w0 b0, holds st' lrv w0 b0).
  { intros st0 (w0 & b0 & H0).
    destruct (train_holds l H0) as (c & st' & Ht & _ & H'). eauto 6. }
  destruct (@for_range_ok _ _ Hstep epochs 0
              {| Notebook.vars := st; Notebook.loss_history := [];
                 Notebook.stdout := [] |})
    as (s & Hfor & Hvars & _ & ls & Hls & Hlen & Hnth).
  - cbn. eauto.
  - cbn [Notebook.vars Notebook.loss_history app] in *.
    exists s. split; [exact Hfor|]. split; [exact Hvars|]. split.
    { rewrite Hvars. now apply store_after_holds. }
    split; [now rewrite Hls|].
    intros i Hi. destruct (Hnth i Hi) as (c & Hc & Hl).
    destruct (loss_after i H) as (c' & Hl' & Hc').
    rewrite Hl in Hl'. injection Hl' as ->.
    exists c'. rewrite Hls. auto.
Qed.

End LoopOnData.

(** ** Gradient descent on the quadratic loss *)

Section Quadratic.

Local Open Scope Q_scope.

Variable A : Type.
Implicit Types (f : A -> Q) (l : list A).

Lemma Qsum_map_lin4 f1 f2 f3 f4 (c2 c3 c4 : Q) l :
  Qsum (map (fun z => f1 z + c2 * f2 z + c3 * f3 z + c4 * f4 z) l)
  == Qsum (map f1 l) + c2 * Qsum (map f2 l) + c3 * Qsum (map f3 l)
     + c4 * Qsum (map f4 l).
Proof. induction l as [|z l' IH]; simpl; [ring | rewrite IH; ring]. Qed.

Lemma Qsum_cross_le f (a : Q) l :
  2 * a * Qsum (map f l)
  <= Qnat (length l) * (a * a) + Qsum (map (fun z => f z * f z) l).
Proof.
  induction l as [|z l' IH].
  - unfold Qnat, Qsum; cbn [map fold_right length Z.of_nat].
    change (inject_Z 0) with 0. lra.
  - cbn [map Qsum fold_right length].
    fold (Qsum (map f l')). fold (Qsum (map (fun z => f z * f z) l')).
    rewrite Qnat_succ.
    pose proof (Qsq_nonneg (a - f z)). lra.
Qed.

(** Cauchy-Schwarz against the constant sequence. *)
Lemma Qsum_square_le f l :
  Qsum (map f l) * Qsum (map f l)
  <= Qnat (length l) * Qsum (map (fun z => f z * f z) l).
Proof.
  induction l as [|z l' IH].
  - unfold Qnat, Qsum; cbn [map fold_right length Z.of_nat].
    change (inject_Z 0) with 0. lra.
  - pose proof (Qsum_cross_le f (f z) l') as Hc.
    cbn [map Qsum fold_right length].
    fold (Qsum (map f l')) in *. fold (Qsum (map (fun z => f z * f z) l')) in *.
    rewrite Qnat_succ.
    lra.
Qed.

End Quadratic.

Lemma mse_nonneg (wv bv : Q) (l : list (Q * Q)) : (0 <= mse wv bv l)%Q.
Proof.
  unfold mse, Qmean. rewrite length_map.
  assert (H : (0 <= Qsum (map (fun z => residual wv bv z * residual wv bv z) l))%Q).
  { apply Qsum_map_nonneg. intros z _. apply Qsq_nonneg. }
  destruct l as [|z l']; [vm_compute; discriminate|].
  apply Qle_shift_div_l; [apply Qnat_pos; cbn; lia | lra].
Qed.

Lemma Qnat_length_pos (A : Type) (l : list A) : l <> [] -> (0 < Qnat (length l))%Q.
Proof. intros H. apply Qnat_pos. destruct l; [congruence | cbn; lia]. Qed.

Section Descent.

Local Open Scope Q_scope.

Variables (l : list (Q * Q)) (lrv wv bv : Q).
Hypothesis Hl : l <> [].
Hypothesis Hx : forall z, In z l -> -1 <= fst z <= 1.
Hypothesis Hlr : 0 <= lrv <= 1 # 2.

(** The loss after a gradient step does not exceed the loss before it. *)
Lemma mse_descent :
  mse (fst (gd_step lrv l (wv, bv))) (snd (gd_step lrv l (wv, bv))) l
  <= mse wv bv l.
Proof.
  pose proof (Qnat_length_pos Hl) as HN.
  cbn [gd_step fst snd].
  set (gw := grad_weight wv bv l). set (gb := grad_bias wv bv l).
  assert (Egw : gw * Qnat (length l)
                == 2 * Qsum (map (fun z => residual wv bv z * fst z) l)).
  { unfold gw, grad_weight, Qmean. rewrite length_map.
    rewrite Qsum_map_ext
      with (g := fun z => 2 * (residual wv bv z * fst z)) by (intros; ring).
    rewrite Qsum_map_scal. field. lra. }
  assert (Egb : gb * Qnat (length l) == 2 * Qsum (map (residual wv bv) l)).
  { unfold gb, grad_bias, Qmean. rewrite length_map.
    rewrite Qsum_map_scal. field. lra. }
  assert (Hq : Qsum (map (fun z => (gw * fst z + gb) * (gw * fst z + gb)) l)
               <= 2 * (gw * gw + gb * gb) * Qnat (length l)).
  { rewrite <- Qsum_map_const.
    apply Qsum_map_le. intros z Hz. specialize (Hx z Hz).
    pose proof (Qsq_nonneg (gw * fst z - gb)).
    assert (0 <= gw * gw * (1 - fst z * fst z)).
    { apply Qmult_le_0_compat; [apply Qsq_nonneg | nra]. }
    lra. }
  assert (Es : Qsum (map (fun z => residual (wv - lrv * gw) (bv - lrv * gb) z
                                   * residual (wv - lrv * gw) (bv - lrv * gb) z) l)
               == Qsum (map (fun z => residual wv bv z * residual wv bv z) l)
                  + (- (2) * lrv * gw)
                    * Qsum (map (fun z => residual wv bv z * fst z) l)
                  + (- (2) * lrv * gb) * Qsum (map (residual wv bv) l)
                  + (lrv * lrv)
                    * Qsum (map (fun z => (gw * fst z + gb) * (gw * fst z + gb)) l)).
  { rewrite <- Qsum_map_lin4. apply Qsum_map_ext.
    intros z _. unfold residual. ring. }
  unfold mse, Qmean. rewrite !length_map.
  apply Qmult_le_compat_r; [|apply Qlt_le_weak, Qinv_lt_0_compat, HN].
  rewrite Es.
  set (N := Qnat (length l)) in *.
  set (B := Qsum (map (fun z => residual wv bv z * fst z) l)) in *.
  set (C := Qsum (map (residual wv bv) l)) in *.
  set (D := Qsum (map (fun z => (gw * fst z + gb) * (gw * fst z + gb)) l)) in *.
  set (A := Qsum (map (fun z => residual wv bv z * residual wv bv z) l)).
  clearbody A B C D N gw gb.
  assert (EB : B == (1 # 2) * gw * N) by lra.
  assert (EC : C == (1 # 2) * gb * N) by lra.
  rewrite EB, EC.
  assert (H1 : 0 <= lrv * lrv * (2 * (gw * gw + gb * gb) * N - D)).
  { apply Qmult_le_0_compat; [apply Qsq_nonneg | lra]. }
  assert (H2 : 0 <= lrv * (1 - 2 * lrv) * ((gw * gw + gb * gb) * N)).
  { apply Qmult_le_0_compat; [nra|]. apply Qmult_le_0_compat; [|lra].
    pose proof (Qsq_nonneg gw). pose proof (Qsq_nonneg gb). lra. }
  lra.
Qed.

End Descent.

Lemma gd_iter_succ (n : nat) (lrv : Q) (l : list (Q * Q)) :
  forall p, gd_iter (S n) lrv l p = gd_step lrv l (gd_iter n lrv l p).
Proof.
  induction n as [|n IH]; intros p; [reflexivity|].
  change (gd_iter (S (S n)) lrv l p) with (gd_iter (S n) lrv l (gd_step lrv l p)).
  now rewrite IH.
Qed.

Lemma combine_nonempty (A B : Type) (xs : list A) (ys : list B) :
  length xs = length ys -> xs <> [] -> combine xs ys <> [].
Proof. destruct xs, ys; cbn; congruence. Qed.

Lemma loss_value_finite (wv bv : Q) (l : list (Q * Q)) (c : num) :
  l <> [] -> num_eq c (loss_value wv bv l) ->
  exists a, c = Fin a /\ (a == mse wv bv l)%Q.
Proof.
  intros Hl H. destruct l; [congruence|]. cbn [loss_value] in H.
  destruct c as [a|]; [|contradiction]. now exists a.
Qed.

Lemma broadcast_mismatch (f : num -> num -> num) (l1 l2 : list num) :
  length l1 <> length l2 -> length l1 <> 1 -> length l2 <> 1 ->
  broadcast f (array l1) (array l2) = Raise (ShapeError (length l1) (length l2)).
Proof.
  intros H H1 H2. unfold broadcast.
  destruct (Nat.eqb_spec (length l1) (length l2)); [contradiction|].
  destruct l1 as [|p [|p' l1]], l2 as [|q [|q' l2]]; cbn in *; congruence.
Qed.

(** ** Data that lie on a line *)

Section OnLine.

Local Open Scope Q_scope.

Variables (l : list (Q * Q)) (lrv ws bs : Q).
Hypothesis Hl : l <> [].
Hypothesis Hy : forall z, In z l -> snd z == ws * fst z + bs.

Lemma residual_on_line (wv bv : Q) (z : Q * Q) :
  In z l -> residual wv bv z == (wv - ws) * fst z + (bv - bs).
Proof. intros Hz. unfold residual. rewrite (Hy z Hz). ring. Qed.

(** The gradient in terms of the first two moments of the inputs. *)
Lemma grad_weight_moments (wv bv : Q) :
  grad_weight wv bv l
  == 2 * ((wv - ws) * Qmean (map (fun z => fst z * fst z) l)
          + (bv - bs) * Qmean (map fst l)).
Proof.
  pose proof (Qnat_length_pos Hl) as HN.
  unfold grad_weight, Qmean. rewrite !length_map.
  rewrite Qsum_map_ext
    with (g := fun z => 0 + (2 * (wv - ws)) * (fst z * fst z)
                        + (2 * (bv - bs)) * fst z + 0 * 0).
  - rewrite (Qsum_map_lin4 (fun _ => 0) (fun z => fst z * fst z) fst (fun _ => 0)).
    rewrite Qsum_map_const. field. lra.
  - intros z Hz. rewrite (residual_on_line wv bv z Hz). ring.
Qed.

Lemma grad_bias_moments (wv bv : Q) :
  grad_bias wv bv l == 2 * ((wv - ws) * Qmean (map fst l) + (bv - bs)).
Proof.
  pose proof (Qnat_length_pos Hl) as HN.
  unfold grad_bias, Qmean. rewrite !length_map.
  rewrite Qsum_map_ext
    with (g := fun z => 2 * (bv - bs) + (2 * (wv - ws)) * fst z + 0 * 0 + 0 * 0).
  - rewrite (Qsum_map_lin4 (fun _ => 2 * (bv - bs)) fst (fun _ => 0) (fun _ => 0)).
    rewrite !Qsum_map_const. field. lra.
  - intros z Hz. rewrite (residual_on_line wv bv z Hz). ring.
Qed.

Hypothesis Hx : forall z, In z l -> -1 <= fst z <= 1.

(** A gradient step changes the squared distance to the parameters of the
    line by at most [- 4 * lrv * (1 - 2 * lrv)] times the loss. *)
Lemma distance_descent (wv bv : Q) :
  dist2 ws bs (gd_step lrv l (wv, bv))
  <= dist2 ws bs (wv, bv) - 4 * lrv * (1 - 2 * lrv) * mse wv bv l.
Proof.
  pose proof (Qnat_length_pos Hl) as HN.
  unfold dist2. cbn [gd_step fst snd].
  set (gw := grad_weight wv bv l). set (gb := grad_bias wv bv l).
  set (A := Qsum (map (fun z => residual wv bv z * residual wv bv z) l)).
  set (B := Qsum (map (fun z => residual wv bv z * fst z) l)).
  set (C := Qsum (map (residual wv bv) l)).
  set (N := Qnat (length l)) in *.
  assert (Egw : gw * N == 2 * B).
  { unfold gw, grad_weight, Qmean. rewrite length_map. fold N.
    rewrite Qsum_map_ext
      with (g := fun z => 2 * (residual wv bv z * fst z)) by (intros; ring).
    rewrite Qsum_map_scal. fold B. field. lra. }
  assert (Egb : gb * N == 2 * C).
  { unfold gb, grad_bias, Qmean. rewrite length_map. fold N.
    rewrite Qsum_map_scal. fold C. field. lra. }
  assert (EM : mse wv bv l * N == A).
  { unfold mse, Qmean. rewrite length_map. fold N A. field. lra. }
  assert (EA : A == (wv - ws) * B + (bv - bs) * C).
  { unfold A, B, C.
    rewrite Qsum_map_ext
      with (g := fun z => 0 + (wv - ws) * (residual wv bv z * fst z)
                          + (bv - bs) * residual wv bv z + 0 * 0).
    - rewrite (Qsum_map_lin4 (fun _ => 0) (fun z => residual wv bv z * fst z)
                 (residual wv bv) (fun _ => 0)).
      rewrite Qsum_map_const. ring.
    - intros z Hz. rewrite (residual_on_line wv bv z Hz) at 2. ring. }
  assert (HB : B * B <= N * A).
  { unfold B, N.
    eapply Qle_trans; [apply Qsum_square_le|].
    apply Qmult_le_l; [exact HN|]. apply Qsum_map_le.
    intros z Hz. specialize (Hx z Hz).
    pose proof (Qsq_nonneg (residual wv bv z)).
    assert (0 <= residual wv bv z * residual wv bv z * (1 - fst z * fst z)).
    { apply Qmult_le_0_compat; [assumption | nra]. }
    lra. }
  assert (HC : C * C <= N * A) by apply Qsum_square_le.
  set (M := mse wv bv l) in *.
  clearbody A B C N gw gb M.
  (* everything relative to the count *)
  assert (HG : (gw * gw + gb * gb) <= 8 * M).
  { apply Qmult_le_l with (z := N * N); [nra|].
    assert (E1 : N * N * (gw * gw + gb * gb) == 4 * (B * B + C * C)).
    { transitivity ((gw * N) * (gw * N) + (gb * N) * (gb * N)); [ring|].
      rewrite Egw, Egb. ring. }
    rewrite E1. rewrite <- EM in HB, HC.
    assert (E2 : N * N * (8 * M) == 4 * (N * (M * N) + N * (M * N))) by ring.
    rewrite E2. lra. }
  assert (HD : (wv - ws) * gw + (bv - bs) * gb == 2 * M).
  { apply Qmult_inj_r with (z := N); [lra|].
    transitivity ((wv - ws) * (gw * N) + (bv - bs) * (gb * N)); [ring|].
    rewrite Egw, Egb. rewrite <- EM in EA. lra. }
  assert (H1 : 0 <= lrv * lrv * (8 * M - (gw * gw + gb * gb))).
  { apply Qmult_le_0_compat; [apply Qsq_nonneg | lra]. }
  assert (E3 : (wv - lrv * gw - ws) * (wv - lrv * gw - ws)
               + (bv - lrv * gb - bs) * (bv - lrv * gb - bs)
               == (wv - ws) * (wv - ws) + (bv - bs) * (bv - bs)
                  - 2 * lrv * ((wv - ws) * gw + (bv - bs) * gb)
                  + lrv * lrv * (gw * gw + gb * gb)) by ring.
  rewrite E3, HD. lra.
Qed.

End OnLine.

Section Convergence.

Local Open Scope Q_scope.

Variables (l : list (Q * Q)) (lrv ws bs : Q).
Hypothesis Hl : l <> [].
Hypothesis Hy : forall z, In z l -> snd z == ws * fst z + bs.
Hypothesis Hx : forall z, In z l -> -1 <= fst z <= 1.
Hypothesis Hlr : 0 <= lrv <= 1 # 2.

(** The distance to the parameters of the line pays for the losses: after
    [n] steps, [n] times the current loss has been taken off it. *)
Lemma distance_budget (n : nat) (p : Q * Q) :
  dist2 ws bs (gd_iter n lrv l p)
  + 4 * lrv * (1 - 2 * lrv) * Qnat n
    * mse (fst (gd_iter n lrv l p)) (snd (gd_iter n lrv l p)) l
  <= dist2 ws bs p.
Proof.
  induction n as [|n IH].
  - cbn [gd_iter]. change (Qnat 0) with 0. lra.
  - rewrite gd_iter_succ, Qnat_succ.
    destruct (gd_iter n lrv l p) as [wv bv]. cbn [fst snd] in IH.
    pose proof (@distance_descent l lrv ws bs Hl Hy Hx wv bv) as Hd.
    pose proof (@mse_descent l lrv wv bv Hl Hx Hlr) as Hm.
    pose proof (mse_nonneg wv bv l) as H0.
    set (q := gd_step lrv l (wv, bv)) in *.
    set (c := 4 * lrv * (1 - 2 * lrv)) in *.
    assert (Hc : 0 <= c).
    { unfold c. apply Qmult_le_0_compat; lra. }
    assert (HN : 0 <= Qnat n + 1).
    { unfold Qnat. pose proof (Nat2Z.is_nonneg n).
      assert (0 <= inject_Z (Z.of_nat n)) by (unfold Qle; cbn; lia). lra. }
    assert (H1 : 0 <= c * (Qnat n + 1) * (mse wv bv l - mse (fst q) (snd q) l)).
    { apply Qmult_le_0_compat; [apply Qmult_le_0_compat; assumption | lra]. }
    lra.
Qed.

End Convergence.

(** ** A slow direction *)

Section SlowMode.

Local Open Scope Q_scope.

Variables (l : list (Q * Q)) (lrv ws bs m1 m2 alpha beta rho : Q).
Hypothesis Hl : l <> [].
Hypothesis Hy : forall z, In z l -> snd z == ws * fst z + bs.
Hypothesis Hm1 : Qmean (map fst l) == m1.
Hypothesis Hm2 : Qmean (map (fun z => fst z * fst z) l) == m2.
Hypothesis Hpos : 0 <= 2 * lrv * m1 /\ 0 <= 1 - 2 * lrv * m2 /\ 0 <= 1 - 2 * lrv.
Hypothesis Hsub1 :
  rho * alpha <= (1 - 2 * lrv * m2) * alpha + 2 * lrv * m1 * beta.
Hypothesis Hsub2 :
  rho * beta <= 2 * lrv * m1 * alpha + (1 - 2 * lrv) * beta.

(** A weight too small by [k * alpha] together with a bias too large by
    [k * beta] stays so after a step, with [k * rho] for [k]. *)
Lemma slow_step (k wv bv : Q) :
  0 <= k ->
  k * alpha <= ws - wv ->
  k * beta <= bv - bs ->
  k * rho * alpha <= ws - fst (gd_step lrv l (wv, bv))
  /\ k * rho * beta <= snd (gd_step lrv l (wv, bv)) - bs.
Proof.
  intros Hk Hu Hv. cbn [gd_step fst snd].
  rewrite (@grad_weight_moments l ws bs Hl Hy), (@grad_bias_moments l ws bs Hl Hy), Hm1, Hm2.
  destruct Hpos as (Hc & Ha & Hd).
  assert (Eu : ws - (wv - lrv * (2 * ((wv - ws) * m2 + (bv - bs) * m1)))
               == (1 - 2 * lrv * m2) * (ws - wv) + 2 * lrv * m1 * (bv - bs))
    by ring.
  assert (Ev : bv - lrv * (2 * ((wv - ws) * m1 + (bv - bs))) - bs
               == 2 * lrv * m1 * (ws - wv) + (1 - 2 * lrv) * (bv - bs))
    by ring.
  rewrite Eu, Ev.
  set (u := ws - wv) in *. set (v := bv - bs) in *. clearbody u v.
  assert (H1 : 0 <= (1 - 2 * lrv * m2) * (u - k * alpha))
    by (apply Qmult_le_0_compat; lra).
  assert (H2 : 0 <= 2 * lrv * m1 * (v - k * beta))
    by (apply Qmult_le_0_compat; lra).
  assert (H3 : 0 <= 2 * lrv * m1 * (u - k * alpha))
    by (apply Qmult_le_0_compat; lra).
  assert (H4 : 0 <= (1 - 2 * lrv) * (v - k * beta))
    by (apply Qmult_le_0_compat; lra).
  assert (H5 : 0 <= k * ((1 - 2 * lrv * m2) * alpha + 2 * lrv * m1 * beta
                         - rho * alpha))
    by (apply Qmult_le_0_compat; lra).
  assert (H6 : 0 <= k * (2 * lrv * m1 * alpha + (1 - 2 * lrv) * beta
                         - rho * beta))
    by (apply Qmult_le_0_compat; lra).
  split; lra.
Qed.

Hypothesis Hrho : 0 <= rho.

Lemma slow_iter (n : nat) :
  forall (k : Q) (p : Q * Q),
    0 <= k ->
    k * alpha <= ws - fst p ->
    k * beta <= snd p - bs ->
    decay rho n k * alpha <= ws - fst (gd_iter n lrv l p)
    /\ decay rho n k * beta <= snd (gd_iter n lrv l p) - bs.
Proof.
  induction n as [|n IH]; intros k [wv bv] Hk Hu Hv; [now split|].
  cbn [gd_iter decay fst snd] in *.
  destruct (slow_step Hk Hu Hv) as [Hu' Hv'].
  apply IH; [apply Qmult_le_0_compat; assumption | assumption | assumption].
Qed.

End SlowMode.

(** ** The data of the notebook *)

Lemma np_target_on_line (np_x : list Q) (z : Q * Q) :
  In z (combine np_x (Notebook.np_target np_x)) ->
  (snd z == (96 # 100) * fst z + (24 # 100))%Q.
Proof.
  unfold Notebook.np_target. induction np_x as [|v np_x IH]; cbn; [tauto|].
  intros [<- | H]; [reflexivity | now apply IH].
Qed.

Lemma np_target_length (np_x : list Q) :
  length np_x = length (Notebook.np_target np_x).
Proof. unfold Notebook.np_target. now rewrite length_map. Qed.

Lemma unit_interval_bounded (np_x : list Q) :
  (forall v, In v np_x -> (0 <= v < 1)%Q) ->
  forall z, In z (combine np_x (Notebook.np_target np_x)) ->
            (-1 <= fst z <= 1)%Q.
Proof.
  intros Hx [u v] Hin. apply in_combine_l in Hin. specialize (Hx u Hin).
  cbn. lra.
Qed.

Lemma init_store_holds (r1 r2 : Q) :
  holds (Notebook.init_store r1 r2) (1 # 10) r1 r2.
Proof. exists (1 # 10)%Q, r1, r2. repeat split; reflexivity. Qed.

Lemma grid_length (n : nat) : length (grid n) = n.
Proof. unfold grid. now rewrite length_map, length_seq. Qed.

Lemma grid_range (n : nat) (v : Q) : In v (grid n) -> (0 <= v < 1)%Q.
Proof.
  unfold grid. intros H. apply in_map_iff in H. destruct H as (i & <- & Hi).
  apply in_seq in Hi. unfold Qle, Qlt. cbn.
  rewrite Z.mul_1_r. split; [lia|].
  destruct n as [|n]; [lia|]. rewrite <- Pos.of_nat_succ, Zpos_P_of_succ_nat. lia.
Qed.

Lemma map_fst_combine (A B : Type) (xs : list A) (ys : list B) :
  length xs = length ys -> map fst (combine xs ys) = xs.
Proof.
  revert ys. induction xs as [|a xs IH]; intros [|c ys] H; cbn in *;
    try discriminate; [reflexivity | f_equal; apply IH; congruence].
Qed.

(** Sums of fractions with one denominator are sums of numerators. *)
Lemma Qsum_common_den (f : nat -> Z) (d : positive) (l : list nat) :
  (Qsum (map (fun i => f i # d) l) == fold_right Z.add 0%Z (map f l) # d)%Q.
Proof.
  induction l as [|i l IH]; [reflexivity|].
  cbn [map Qsum fold_right]. fold (Qsum (map (fun i => f i # d) l)).
  rewrite IH. unfold Qeq, Qplus. cbn [Qnum Qden]. rewrite !Pos2Z.inj_mul. ring.
Qed.

Lemma Qsum_square_common_den (f : nat -> Z) (d : positive) (l : list nat) :
  (Qsum (map (fun i => (f i # d) * (f i # d)) l)
   == fold_right Z.add 0%Z (map (fun i => f i * f i)%Z l) # (d * d))%Q.
Proof.
  induction l as [|i l IH]; [reflexivity|].
  cbn [map Qsum fold_right].
  fold (Qsum (map (fun i => (f i # d) * (f i # d))%Q l)).
  rewrite IH. unfold Qeq, Qplus, Qmult. cbn [Qnum Qden]. rewrite !Pos2Z.inj_mul. ring.
Qed.

Lemma grid_mean :
  (Qmean (map fst (combine (grid 1000) (Notebook.np_target (grid 1000))))
   == 999 # 2000)%Q.
Proof.
  rewrite map_fst_combine by apply np_target_length.
  unfold Qmean. rewrite grid_length. unfold grid.
  rewrite Qsum_common_den.
  apply Qeq_bool_eq. vm_compute. reflexivity.
Qed.

Lemma grid_mean_square :
  (Qmean (map (fun z => fst z * fst z)
            (combine (grid 1000) (Notebook.np_target (grid 1000))))
   == 665667 # 2000000)%Q.
Proof.
  rewrite <- (map_map fst (fun v => v * v)%Q).
  rewrite map_fst_combine by apply np_target_length.
  unfold Qmean. rewrite length_map, grid_length. unfold grid.
  rewrite map_map, Qsum_square_common_den.
  apply Qeq_bool_eq. vm_compute. reflexivity.
Qed.

(** ** The sign of binary32 results *)

Lemma binary_round_aux_sign (prec emax : Z) (s : bool) (m e : Z) (lx : location) :
  sign_is s (binary_round_aux prec emax s m e lx).
Proof.
  unfold binary_round_aux.
  destruct (shr_fexp prec emax m e lx) as [mrs' e'].
  destruct (shr_fexp prec emax _ e' loc_Exact) as [mrs'' e''].
  destruct (shr_m mrs''); [reflexivity | | exact I].
  destruct (Z.leb e'' (Z.sub emax prec)); reflexivity.
Qed.

Lemma binary_round_sign (prec emax : Z) (s : bool) (m : positive) (e : Z) :
  sign_is s (binary_round prec emax s m e).
Proof.
  unfold binary_round. destruct (shl_align _ _ _) as [mz ez].
  apply binary_round_aux_sign.
Qed.

Lemma sign_clear_is (v : spec_float) : sign_clear v <-> sign_is false v.
Proof. destruct v; cbn; tauto. Qed.

Lemma of_nat_sign_clear (n : nat) : sign_clear (Float32.of_nat n).
Proof.
  unfold Float32.of_nat, Float32.of_Z, binary_normalize.
  destruct (Z.of_nat n) eqn:E; [reflexivity | | lia].
  apply sign_clear_is, binary_round_sign.
Qed.

Lemma square_sign_clear (z : spec_float) : sign_clear (Float32.fmul z z).
Proof.
  destruct z as [s|s| |s m e]; cbn; try (now destruct s); [exact I|].
  apply sign_clear_is. unfold Float32.fmul, SFmul.
  replace (xorb s s) with false by (now destruct s).
  apply binary_round_aux_sign.
Qed.

Lemma fadd_sign_clear (a c : spec_float) :
  sign_clear a -> sign_clear c -> sign_clear (Float32.fadd a c).
Proof.
  destruct a as [s|s| |s m e], c as [s'|s'| |s' m' e']; cbn;
    intros Ha Hc; subst; try reflexivity; try exact I.
  apply sign_clear_is. unfold Float32.fadd, SFadd. cbn [cond_Zopp Z.add].
  cbn [binary_normalize]. apply binary_round_sign.
Qed.

Lemma fsum_sign_clear (l : list spec_float) :
  Forall sign_clear l -> sign_clear (Float32.fsum l).
Proof.
  unfold Float32.fsum. assert (H0 : sign_clear Float32.zero) by reflexivity.
  revert H0. generalize Float32.zero.
  induction l as [|a l IH]; intros acc Hacc Hl; [exact Hacc|].
  cbn [fold_left]. inversion Hl; subst. apply IH; [|assumption].
  now apply fadd_sign_clear.
Qed.

Lemma fdiv_sign_clear (a c : spec_float) :
  sign_clear a -> sign_clear c -> sign_clear (Float32.fdiv a c).
Proof.
  destruct a as [s|s| |s m e], c as [s'|s'| |s' m' e']; cbn;
    intros Ha Hc; subst; try reflexivity; try exact I.
  apply sign_clear_is. unfold Float32.fdiv, SFdiv.
  destruct (SFdiv_core_binary _ _ _ _ _ _) as [[mz ez] lz]. cbn [xorb].
  apply binary_round_aux_sign.
Qed.

Lemma sign_clear_never_negative (v : spec_float) :
  sign_clear v -> never_negative (Float32.scalar v).
Proof.
  destruct v as [s|s| |s m e]; cbn; intros H; subst; auto.
Qed.

Lemma mean_of_squares (a : Float32.ndarray) :
  sign_clear (Float32.mean (Float32.amap (fun z => Float32.fmul z z) a)).
Proof.
  unfold Float32.mean. apply fdiv_sign_clear; [|apply of_nat_sign_clear].
  destruct a as [z|l]; cbn [Float32.amap Float32.total].
  - apply square_sign_clear.
  - apply fsum_sign_clear. apply Forall_forall. intros v Hv.
    apply in_map_iff in Hv. destruct Hv as (z & <- & _). apply square_sign_clear.
Qed.

(** ** What the loop on binary32 records *)

Lemma eval_loss_never_negative (st : Float32.store) (fd : Float32.feed)
    (a : Float32.ndarray) :
  Float32.eval st fd Notebook.loss = Ok a -> never_negative a.
Proof.
  unfold Notebook.loss. generalize (Notebook.y - Notebook.target)%T as u.
  intros u. cbn [Float32.eval].
  destruct (Float32.eval st fd u) as [r|e]; cbn [rbind]; [|discriminate].
  intros [= <-]. apply sign_clear_never_negative, mean_of_squares.
Qed.

Lemma train_outputs_never_negative (args : list Float32.ndarray)
    (st st' : Float32.store) (outs : list Float32.ndarray) :
  Float32.train args st = (Ok outs, st') -> Forall never_negative outs.
Proof.
  unfold Float32.train, Float32.K_function. cbn [mapM].
  destruct (Float32.eval st _ Notebook.loss) as [a|e] eqn:E; cbn [rbind];
    [|discriminate].
  destruct (mapM _ Notebook.updates) as [news|e]; [|discriminate].
  intros [= <- _]. constructor; [|constructor].
  eapply eval_loss_never_negative, E.
Qed.

Lemma epoch_body_never_negative (args : list Float32.ndarray) (epoch : nat)
    (s : Float32.session) :
  Forall never_negative (Float32.loss_history s) ->
  Forall never_negative
    (Float32.loss_history (snd (Float32.epoch_body args epoch s))).
Proof.
  intros H. unfold Float32.epoch_body.
  destruct (Float32.train args (Float32.vars s)) as [[outs|e] st] eqn:E;
    [|exact H].
  apply train_outputs_never_negative in E.
  destruct outs as [|c outs]; cbn [nth_error]; [exact H|].
  assert (H' : Forall never_negative (Float32.loss_history s ++ [c])).
  { apply Forall_app. split; [exact H|]. constructor; [|constructor].
    now inversion E. }
  destruct (epoch mod 20 =? 0); [|exact H'].
  destruct (Float32.K_eval Notebook.w st), (Float32.K_eval Notebook.b st); exact H'.
Qed.

Lemma for_range_never_negative (args : list Float32.ndarray) (range : list nat) :
  forall s,
    Forall never_negative (Float32.loss_history s) ->
    Forall never_negative
      (Float32.loss_history
         (snd (Float32.for_range (Float32.epoch_body args) range s))).
Proof.
  induction range as [|epoch rest IH]; intros s H; [exact H|].
  cbn [Float32.for_range].
  pose proof (@epoch_body_never_negative args epoch s H) as H'.
  destruct (Float32.epoch_body args epoch s) as [[[]|e] s']; cbn [snd] in *.
  - now apply IH.
  - exact H'.
Qed.

(** ** One call on binary32 batches *)

Lemma of_Q_0 : Float32.of_Q 0 = Float32.zero.
Proof. reflexivity. Qed.

Lemma of_Q_2 : Float32.of_Q 2 = Float32.of_Z 2.
Proof. reflexivity. Qed.

Lemma fbroadcast_scalars (f : spec_float -> spec_float -> spec_float)
    (a c : spec_float) :
  Float32.broadcast f (Float32.scalar a) (Float32.scalar c)
  = Ok (Float32.scalar (f a c)).
Proof. reflexivity. Qed.

Section FloatLifted.

Variable l : list (spec_float * spec_float).

Lemma broadcast_flift_flift (f : spec_float -> spec_float -> spec_float)
    (h1 h2 : spec_float * spec_float -> spec_float) :
  Float32.broadcast f (flift h1 l) (flift h2 l)
  = Ok (flift (fun z => f (h1 z) (h2 z)) l).
Proof.
  unfold Float32.broadcast, flift. rewrite !length_map, Nat.eqb_refl.
  do 2 f_equal. unfold map2.
  induction l as [|z l' IH]; simpl; [reflexivity | now rewrite IH].
Qed.

Lemma broadcast_scalar_flift (f : spec_float -> spec_float -> spec_float)
    (a : spec_float) (h : spec_float * spec_float -> spec_float) :
  Float32.broadcast f (Float32.scalar a) (flift h l)
  = Ok (flift (fun z => f a (h z)) l).
Proof. unfold Float32.broadcast, flift. now rewrite map_map. Qed.

Lemma broadcast_flift_scalar (f : spec_float -> spec_float -> spec_float)
    (h : spec_float * spec_float -> spec_float) (a : spec_float) :
  Float32.broadcast f (flift h l) (Float32.scalar a)
  = Ok (flift (fun z => f (h z) a) l).
Proof. unfold Float32.broadcast, flift. now rewrite map_map. Qed.

Lemma amap_flift (f : spec_float -> spec_float)
    (h : spec_float * spec_float -> spec_float) :
  Float32.amap f (flift h l) = flift (fun z => f (h z)) l.
Proof. unfold Float32.amap, flift. now rewrite map_map. Qed.

Lemma total_flift (h : spec_float * spec_float -> spec_float) :
  Float32.total (flift h l) = Float32.fsum (map h l).
Proof. reflexivity. Qed.

Lemma mean_flift (h : spec_float * spec_float -> spec_float) :
  Float32.mean (flift h l)
  = Float32.fdiv (Float32.fsum (map h l)) (Float32.of_nat (length l)).
Proof. unfold Float32.mean, flift. cbn. now rewrite length_map. Qed.

Lemma sum_to_flift_scalar (h : spec_float * spec_float -> spec_float)
    (a : spec_float) :
  Float32.sum_to (flift h l) (Float32.scalar a)
  = Float32.scalar (Float32.fsum (map h l)).
Proof. reflexivity. Qed.

Lemma sum_to_flift_flift (h h' : spec_float * spec_float -> spec_float) :
  Float32.sum_to (flift h l) (flift h' l) = flift h l.
Proof. unfold Float32.sum_to, flift. now rewrite !length_map, Nat.eqb_refl. Qed.

Lemma div_count_scalar_flift (g : spec_float)
    (h : spec_float * spec_float -> spec_float) :
  (r <- Float32.broadcast (fun z _ => z) (Float32.scalar g) (flift h l) ;;
   Ok (Float32.amap
         (fun z => Float32.fdiv z (Float32.of_nat (Float32.size (flift h l)))) r))
  = Ok (flift (fun _ => Float32.fdiv g (Float32.of_nat (length l))) l).
Proof.
  unfold Float32.broadcast, flift, Float32.amap, rbind, Float32.size.
  rewrite !map_map, length_map. reflexivity.
Qed.

End FloatLifted.

Section FloatStep.

Variables (l : list (spec_float * spec_float)) (st : Float32.store)
  (lrv wv bv : spec_float).
Hypothesis Hst : fholds st lrv wv bv.

Ltac unfold_graph :=
  unfold Notebook.grads_0, Notebook.grads_1, Notebook.grads, K_gradients,
    Notebook.loss, Notebook.y, Notebook.w, Notebook.x, Notebook.b,
    Notebook.lr, Notebook.target;
  cbn [map nth].

Ltac float_eval Hlr Hw Hb :=
  repeat (cbn [Float32.eval rbind Float32.bind_feed placeholder_eqb variable_eqb
                 grad Float32.amap Float32.sum_to Float32.total];
          rewrite ?Hlr, ?Hw, ?Hb, ?of_Q_0, ?of_Q_2, ?broadcast_flift_flift,
            ?broadcast_scalar_flift, ?broadcast_flift_scalar, ?fbroadcast_scalars,
            ?amap_flift, ?sum_to_flift_scalar, ?sum_to_flift_flift,
            ?div_count_scalar_flift, ?total_flift).

(** The call on equal-length batches, operation by operation in the order
    of the graph. *)
Lemma train_floats :
  let c := Float32.fdiv Float32.one (Float32.of_nat (length l)) in
  let z := Float32.zero in
  exists st',
    Float32.train [flift fst l; flift snd l] st
    = (Ok [Float32.scalar
             (Float32.fdiv
                (Float32.fsum (map (fun z => Float32.fmul (fresidual wv bv z)
                                                          (fresidual wv bv z)) l))
                (Float32.of_nat (length l)))], st')
    /\ fholds st' lrv
         (Float32.fsub wv
            (Float32.fmul lrv
               (Float32.fadd (Float32.fadd (Float32.fadd
                  (Float32.fsum
                     (map (fun z => Float32.fmul (fadjoint c wv bv z) (fst z)) l))
                  z) z) z)))
         (Float32.fsub bv
            (Float32.fmul lrv
               (Float32.fadd (Float32.fadd (Float32.fadd z z)
                  (Float32.fsum (map (fun z => fadjoint c wv bv z) l)))
                  z))).
Proof.
  destruct Hst as (Hlr & Hw & Hb).
  unfold Float32.train, Float32.K_function, Notebook.updates. cbn [mapM fst snd].
  unfold_graph. float_eval Hlr Hw Hb. rewrite mean_flift.
  eexists. split; [reflexivity|].
  unfold fholds. cbn. rewrite Hlr. repeat split.
Qed.

End FloatStep.

Lemma fsums_from (c wv bv : spec_float) (l : list (spec_float * spec_float)) :
  forall acc,
    fold_left
      (fun acc z =>
         let r := fresidual wv bv z in
         let a := Float32.fmul c (Float32.fmul (Float32.of_Z 2) r) in
         (Float32.fadd (fst (fst acc)) (Float32.fmul r r),
          Float32.fadd (snd (fst acc)) (Float32.fmul a (fst z)),
          Float32.fadd (snd acc) a))
      l acc
    = (fold_left Float32.fadd
         (map (fun z => Float32.fmul (fresidual wv bv z) (fresidual wv bv z)) l)
         (fst (fst acc)),
       fold_left Float32.fadd
         (map (fun z => Float32.fmul (fadjoint c wv bv z) (fst z)) l)
         (snd (fst acc)),
       fold_left Float32.fadd (map (fun z => fadjoint c wv bv z) l) (snd acc)).
Proof.
  induction l as [|z l IH]; intros [[s g] h]; [reflexivity|].
  cbn [fold_left map]. rewrite IH. reflexivity.
Qed.

Lemma fsums_spec (c wv bv : spec_float) (l : list (spec_float * spec_float)) :
  fsums c wv bv l
  = (Float32.fsum
       (map (fun z => Float32.fmul (fresidual wv bv z) (fresidual wv bv z)) l),
     Float32.fsum (map (fun z => Float32.fmul (fadjoint c wv bv z) (fst z)) l),
     Float32.fsum (map (fun z => fadjoint c wv bv z) l)).
Proof. unfold fsums. now rewrite fsums_from. Qed.

(** One call, as one pass over the data. *)
Lemma train_fepoch (l : list (spec_float * spec_float)) (st : Float32.store)
    (lrv : spec_float) (p : spec_float * spec_float) :
  fholds st lrv (fst p) (snd p) ->
  exists st',
    Float32.train [flift fst l; flift snd l] st
    = (Ok [Float32.scalar (fst (fepoch lrv l p))], st')
    /\ fholds st' lrv (fst (snd (fepoch lrv l p))) (snd (snd (fepoch lrv l p))).
Proof.
  intros H. destruct (@train_floats l st lrv (fst p) (snd p) H) as (st' & E & H').
  exists st'. unfold fepoch. rewrite fsums_spec. cbn [fst snd]. now split.
Qed.

Section FloatLoop.

Variables (l : list (spec_float * spec_float)) (lrv : spec_float).

Lemma epoch_body_floats (epoch : nat) (s : Float32.session)
    (p : spec_float * spec_float) :
  fholds (Float32.vars s) lrv (fst p) (snd p) ->
  exists s',
    Float32.epoch_body [flift fst l; flift snd l] epoch s = (Ok tt, s')
    /\ Float32.loss_history s'
       = Float32.loss_history s ++ [Float32.scalar (fst (fepoch lrv l p))]
    /\ fholds (Float32.vars s') lrv
         (fst (snd (fepoch lrv l p))) (snd (snd (fepoch lrv l p))).
Proof.
  intros H. destruct (@train_fepoch l (Float32.vars s) lrv p H) as (st' & E & H').
  unfold Float32.epoch_body. rewrite E. cbn [nth_error].
  destruct (epoch mod 20 =? 0); cbn [Float32.K_eval Float32.eval Notebook.w Notebook.b];
    eexists; (split; [reflexivity|]); (split; [reflexivity|]); exact H'.
Qed.

Lemma for_range_floats (n : nat) :
  forall (k : nat) (s : Float32.session) (p : spec_float * spec_float),
    fholds (Float32.vars s) lrv (fst p) (snd p) ->
    exists s',
      Float32.for_range (Float32.epoch_body [flift fst l; flift snd l])
        (seq k n) s = (Ok tt, s')
      /\ Float32.loss_history s'
         = Float32.loss_history s ++ map Float32.scalar (flosses n lrv l p)
      /\ fholds (Float32.vars s') lrv
           (fst (fiter n lrv l p)) (snd (fiter n lrv l p)).
Proof.
  induction n as [|n IH]; intros k s p H.
  - exists s. cbn [seq Float32.for_range flosses fiter map]. rewrite app_nil_r.
    split; [reflexivity|]. split; [reflexivity | exact H].
  - destruct (@epoch_body_floats k s p H) as (s1 & E1 & Hh1 & H1).
    destruct (IH (S k) s1 (snd (fepoch lrv l p)) H1) as (s' & E & Hh & H').
    exists s'. cbn [seq Float32.for_range]. rewrite E1. split; [exact E|].
    split; [|exact H'].
    rewrite Hh, Hh1, <- app_assoc. reflexivity.
Qed.

Lemma training_floats (epochs : nat) (st : Float32.store)
    (p : spec_float * spec_float) :
  fholds st lrv (fst p) (snd p) ->
  exists s,
    Float32.training epochs (flift fst l) (flift snd l) st = (Ok tt, s)
    /\ Float32.loss_history s = map Float32.scalar (flosses epochs lrv l p).
Proof.
  intros H. unfold Float32.training.
  destruct (@for_range_floats epochs 0
              {| Float32.vars := st; Float32.loss_history := [];
                 Float32.stdout := [] |} p H) as (s & E & Hh & _).
  exists s. now split.
Qed.

Lemma flosses_length (n : nat) :
  forall p, length (flosses n lrv l p) = n.
Proof. induction n as [|n IH]; intros p; cbn; [reflexivity | now rewrite IH]. Qed.

Lemma flosses_app (n m : nat) :
  forall p,
    flosses (n + m) lrv l p
    = flosses n lrv l p ++ flosses m lrv l (fiter n lrv l p).
Proof.
  induction n as [|n IH]; intros p; [reflexivity|].
  cbn [Nat.add flosses fiter app]. now rewrite IH.
Qed.

End FloatLoop.

Lemma flift_fst_combine (xs ys : list spec_float) :
  length xs = length ys -> flift fst (combine xs ys) = Float32.array xs.
Proof.
  unfold flift. intros H. f_equal. revert ys H.
  induction xs as [|a xs IH]; intros [|c ys] H; simpl in *; try discriminate;
    [reflexivity | f_equal; apply IH; congruence].
Qed.

Lemma flift_snd_combine (xs ys : list spec_float) :
  length xs = length ys -> flift snd (combine xs ys) = Float32.array ys.
Proof.
  unfold flift. intros H. f_equal. revert ys H.
  induction xs as [|a xs IH]; intros [|c ys] H; simpl in *; try discriminate;
    [reflexivity | f_equal; apply IH; congruence].
Qed.


(** ** The run on the evenly spaced data from the draws 0.96001 and 0.24 *)

(** The weight and the bias that the first 83 calls leave, and the losses
    that the next 23 calls return (the epochs 83 to 105). *)
Lemma grid_run_83 :
  fiter 83 (Float32.cast (Float64.literal 1 10)) grid_data
    (Float32.cast (Float64.literal 96001 100000),
     Float32.cast (Float64.literal 24 100))
  = (S754_finite false 16106168 (-24), S754_finite false 16106039 (-26)).
Proof. vm_compute. reflexivity. Qed.

Lemma grid_run_window :
  flosses 23 (Float32.cast (Float64.literal 1 10)) grid_data
    (S754_finite false 16106168 (-24), S754_finite false 16106039 (-26))
  = [S754_finite false 9185759 (-64); S754_finite false 9199297 (-64);
     S754_finite false 8866599 (-64); S754_finite false 8759599 (-64);
     S754_finite false 16655622 (-65); S754_finite false 16663560 (-65);
     S754_finite false 16672530 (-65); S754_finite false 15831646 (-65);
     S754_finite false 15634440 (-65); S754_finite false 15658172 (-65);
     S754_finite false 15019844 (-65); S754_finite false 14849950 (-65);
     S754_finite false 14058103 (-65); S754_finite false 14057382 (-65);
     S754_finite false 14068163 (-65); S754_finite false 13328949 (-65);
     S754_finite false 13173735 (-65); S754_finite false 12542747 (-65);
     S754_finite false 12595970 (-65); S754_finite false 12482028 (-65);
     S754_finite false 11784503 (-65); S754_finite false 11630494 (-65);
     S754_finite false 11725292 (-65)].
Proof. vm_compute. reflexivity. Qed.

Lemma grid64_length (n : nat) : length (grid64 n) = n.
Proof. unfold grid64. now rewrite length_map, length_seq. Qed.

Lemma grid64_unit_draws : Forall (fun v => unit_draw v = true) (grid64 1000).
Proof.
  apply Forall_forall. apply forallb_forall. vm_compute. reflexivity.
Qed.

Lemma grid_run_history :
  exists s,
    Float32.run (Float64.literal 96001 100000) (Float64.literal 24 100)
      (grid64 1000) = (Ok tt, s)
    /\ Float32.loss_history s
       = map Float32.scalar
           (flosses 200 (Float32.cast (Float64.literal 1 10)) grid_data
              (Float32.cast (Float64.literal 96001 100000),
               Float32.cast (Float64.literal 24 100))).
Proof.
  unfold Float32.run.
  assert (Hlen : length (map Float32.cast (grid64 1000))
                 = length (map Float32.cast (Float32.np_target (grid64 1000)))).
  { unfold Float32.np_target. now rewrite !length_map. }
  rewrite <- (flift_fst_combine _ _ Hlen), <- (flift_snd_combine _ _ Hlen).
  fold grid_data.
  apply (@training_floats grid_data (Float32.cast (Float64.literal 1 10)) 200
           (Float32.init_store (Float64.literal 96001 100000)
              (Float64.literal 24 100))
           (Float32.cast (Float64.literal 96001 100000),
            Float32.cast (Float64.literal 24 100))).
  repeat split.
Qed.

Lemma grid_run_losses (j : nat) :
  j < 23 ->
  nth_error
    (flosses 200 (Float32.cast (Float64.literal 1 10)) grid_data
       (Float32.cast (Float64.literal 96001 100000),
        Float32.cast (Float64.literal 24 100)))
    (83 + j)
  = nth_error
      [S754_finite false 9185759 (-64); S754_finite false 9199297 (-64);
       S754_finite false 8866599 (-64); S754_finite false 8759599 (-64);
       S754_finite false 16655622 (-65); S754_finite false 16663560 (-65);
       S754_finite false 16672530 (-65); S754_finite false 15831646 (-65);
       S754_finite false 15634440 (-65); S754_finite false 15658172 (-65);
       S754_finite false 15019844 (-65); S754_finite false 14849950 (-65);
       S754_finite false 14058103 (-65); S754_finite false 14057382 (-65);
       S754_finite false 14068163 (-65); S754_finite false 13328949 (-65);
       S754_finite false 13173735 (-65); S754_finite false 12542747 (-65);
       S754_finite false 12595970 (-65); S754_finite false 12482028 (-65);
       S754_finite false 11784503 (-65); S754_finite false 11630494 (-65);
       S754_finite false 11725292 (-65)] j.
Proof.
  intros Hj. replace 200 with (83 + (23 + 94)) by reflexivity.
  rewrite !flosses_app, grid_run_83, grid_run_window.
  rewrite nth_error_app2 by (rewrite flosses_length; lia).
  rewrite flosses_length. replace (83 + j - 83) with j by lia.
  rewrite nth_error_app1 by (cbn [length]; lia). reflexivity.
Qed.

Lemma grid_run_rises (j : nat) (a c : spec_float) (s : Float32.session) :
  Float32.loss_history s
  = map Float32.scalar
      (flosses 200 (Float32.cast (Float64.literal 1 10)) grid_data
         (Float32.cast (Float64.literal 96001 100000),
          Float32.cast (Float64.literal 24 100))) ->
  S j < 23 ->
  nth_error
    (flosses 200 (Float32.cast (Float64.literal 1 10)) grid_data
       (Float32.cast (Float64.literal 96001 100000),
        Float32.cast (Float64.literal 24 100))) (83 + j) = Some a ->
  nth_error
    (flosses 200 (Float32.cast (Float64.literal 1 10)) grid_data
       (Float32.cast (Float64.literal 96001 100000),
        Float32.cast (Float64.literal 24 100))) (83 + S j) = Some c ->
  SFltb a c = true ->
  rises_at (Float32.loss_history s) (83 + j).
Proof.
  intros Hh Hj Ha Hc Hlt. exists a, c. rewrite Hh.
  replace (S (83 + j)) with (83 + S j) by lia.
  rewrite !nth_error_map. unfold Float32.float32 in *. rewrite Ha, Hc.
  now repeat split.
Qed.

(** * The properties of the training step and of the training loop *)



(** C5.  On the one-element batches [x = [1]], [y = [1]] with weight 0,
    bias 0 and learning rate 0.1, one call of [train] returns the loss 1;
    the two gradients are -2 and -2; the updated weight and bias are 0.2
    and 0.2. *)
Theorem train_step_unit_example :
  let st := Notebook.init_store 0 0 in
  let args := [array [Fin 1]; array [Fin 1]] in
  let fd := bind_feed [ph_x; ph_target] args in
  exists loss g_weight g_bias weight_new bias_new,
    st var_lr = scalar (Fin (1 # 10))
    /\ fst (Notebook.train args st) = Ok [scalar (Fin loss)]
    /\ eval st fd Notebook.grads_0 = Ok (scalar (Fin g_weight))
    /\ eval st fd Notebook.grads_1 = Ok (scalar (Fin g_bias))
    /\ snd (Notebook.train args st) var_w = scalar (Fin weight_new)
    /\ snd (Notebook.train args st) var_b = scalar (Fin bias_new)
    /\ (loss == 1)%Q /\ (g_weight == -2)%Q /\ (g_bias == -2)%Q
    /\ (weight_new == 2 # 10)%Q /\ (bias_new == 2 # 10)%Q.
Proof.
  cbv zeta. do 5 eexists.
  repeat match goal with |- _ /\ _ => split end;
    try (vm_compute; reflexivity).
Qed.



(** Were the weight written before the new bias is computed, the bias
    would come out differently: on the batches [[1]], [[1]] from weight 0
    and bias 0 it would be 0.16 instead of 0.2. *)
Lemma bias_update_depends_on_the_store :
  let args := [array [Fin 1]; array [Fin 1]] in
  let st := Notebook.init_store 0 0 in
  let fd := bind_feed [ph_x; ph_target] args in
  let st_w := set_var st var_w (snd (Notebook.train args st) var_w) in
  exists bias_sync bias_seq,
    eval st fd (Notebook.b - Notebook.lr * Notebook.grads_1)%T
    = Ok (scalar (Fin bias_sync))
    /\ eval st_w fd (Notebook.b - Notebook.lr * Notebook.grads_1)%T
       = Ok (scalar (Fin bias_seq))
    /\ (bias_sync == 2 # 10)%Q /\ (bias_seq == 16 # 100)%Q.
Proof.
  cbv zeta. do 2 eexists.
  repeat match goal with |- _ /\ _ => split end; vm_compute; reflexivity.
Qed.

(** C3.  In every successful call of [train], the value written to the
    weight and the value written to the bias are both the values of their
    update expressions in the store the call started from: the new weight
    plays no part in the gradient that moves the bias. *)
Theorem train_updates_from_one_snapshot
    (args outs : list ndarray) (st : store) :
  fst (Notebook.train args st) = Ok outs ->
  let fd := bind_feed [ph_x; ph_target] args in
  let st' := snd (Notebook.train args st) in
  eval st fd (Notebook.w - Notebook.lr * Notebook.grads_0)%T = Ok (st' var_w)
  /\ eval st fd (Notebook.b - Notebook.lr * Notebook.grads_1)%T = Ok (st' var_b)
  /\ st' var_lr = st var_lr.
Proof.
  unfold Notebook.train, K_function, Notebook.updates.
  cbn [mapM fst snd].
  destruct (eval st (bind_feed [ph_x; ph_target] args) Notebook.loss)
    as [vl|e]; cbn [rbind fst]; [|discriminate].
  destruct (eval st (bind_feed [ph_x; ph_target] args)
              (Notebook.w - Notebook.lr * Notebook.grads_0)%T)
    as [vw|e]; cbn [rbind fst]; [|discriminate].
  destruct (eval st (bind_feed [ph_x; ph_target] args)
              (Notebook.b - Notebook.lr * Notebook.grads_1)%T)
    as [vb|e]; cbn [rbind fst]; [|discriminate].
  intros _. cbn. auto.
Qed.

Lemma train_updates_from_one_snapshot_witness :
  let args := [array [Fin 1; Fin 2]; array [Fin 3; Fin 5]] in
  let st := Notebook.init_store 0 0 in
  let fd := bind_feed [ph_x; ph_target] args in
  let st' := snd (Notebook.train args st) in
  eval st fd (Notebook.w - Notebook.lr * Notebook.grads_0)%T = Ok (st' var_w)
  /\ eval st fd (Notebook.b - Notebook.lr * Notebook.grads_1)%T = Ok (st' var_b)
  /\ st' var_lr = st var_lr.
Proof.
  apply (@train_updates_from_one_snapshot
           [array [Fin 1; Fin 2]; array [Fin 3; Fin 5]]
           [scalar (Fin (34 # 2))] (Notebook.init_store 0 0)).
  vm_compute. reflexivity.
Defined.

(** C2, as stated, fails: [train] has no guard of its own.  A pair of
    empty batches is accepted (the call returns a not-a-number loss), and
    so is a pair of lengths 1 and 2 (the shorter batch is broadcast, and
    weight and bias are updated). *)
Lemma train_accepts_invalid_batches :
  let st := Notebook.init_store 0 0 in
  (length (@nil num) = 0
   /\ fst (Notebook.train [array []; array []] st) = Ok [scalar NaN])
  /\ (length [Fin 1] <> length [Fin 1; Fin 2]
      /\ fst (Notebook.train [array [Fin 1]; array [Fin 1; Fin 2]] st)
         = Ok [scalar (Fin (5 # 2))]
      /\ snd (Notebook.train [array [Fin 1]; array [Fin 1; Fin 2]] st) var_w
         = scalar (Fin (12 # 40))).
Proof.
  cbv zeta. repeat split; try (vm_compute; reflexivity). cbn. lia.
Qed.

(** C2, amended.  The only check on the batches is the broadcasting of
    the element-wise operations.  When the two lengths differ and neither
    is 1, the call raises the shape error of the backend and leaves every
    variable as it was.  A pair of empty batches is accepted: the call
    returns a not-a-number loss and the parameters keep their values. *)
Theorem train_shape_errors_come_from_broadcasting
    (learning_rate weight bias : Q) (st : store) :
  st var_lr = scalar (Fin learning_rate) ->
  st var_w = scalar (Fin weight) ->
  st var_b = scalar (Fin bias) ->
  (forall x_batch y_batch : list num,
      length x_batch <> length y_batch ->
      length x_batch <> 1 -> length y_batch <> 1 ->
      Notebook.train [array x_batch; array y_batch] st
      = (Raise (ShapeError (length x_batch) (length y_batch)), st))
  /\ (exists st',
         Notebook.train [array []; array []] st = (Ok [scalar NaN], st')
         /\ st' var_lr = st var_lr
         /\ exists weight_new bias_new,
              st' var_w = scalar (Fin weight_new)
              /\ st' var_b = scalar (Fin bias_new)
              /\ (weight_new == weight)%Q /\ (bias_new == bias)%Q).
Proof.
  intros Hlr Hw Hb. split.
  - intros x_batch y_batch Hne Hx Hy.
    assert (Ey : eval st (bind_feed [ph_x; ph_target] [array x_batch; array y_batch])
                   Notebook.y
                 = Ok (array (map (fun z => nadd z (Fin bias))
                                (map (nmul (Fin weight)) x_batch)))).
    { unfold Notebook.y, Notebook.w, Notebook.x, Notebook.b.
      cbn [eval bind_feed placeholder_eqb]. rewrite Hw, Hb. reflexivity. }
    unfold Notebook.train, K_function, Notebook.loss. cbn [mapM eval].
    rewrite Ey. unfold Notebook.target.
    cbn [eval bind_feed placeholder_eqb rbind].
    rewrite broadcast_mismatch by (rewrite ?length_map; assumption).
    rewrite !length_map. reflexivity.
  - destruct (train_data [] st Hlr Hw Hb)
      as (st' & Ht & Hlr' & (w' & Hw' & Ew) & (b' & Hb' & Eb)).
    exists st'. split; [exact Ht|]. split; [exact Hlr'|].
    exists w', b'. repeat split; auto.
    + rewrite Ew. assert (E : (grad_weight weight bias [] == 0)%Q) by reflexivity.
      rewrite E. ring.
    + rewrite Eb. assert (E : (grad_bias weight bias [] == 0)%Q) by reflexivity.
      rewrite E. ring.
Qed.

Lemma train_shape_errors_come_from_broadcasting_witness :
  let st := Notebook.init_store (1 # 3) (1 # 2) in
  (forall x_batch y_batch : list num,
      length x_batch <> length y_batch ->
      length x_batch <> 1 -> length y_batch <> 1 ->
      Notebook.train [array x_batch; array y_batch] st
      = (Raise (ShapeError (length x_batch) (length y_batch)), st))
  /\ (exists st',
         Notebook.train [array []; array []] st = (Ok [scalar NaN], st')
         /\ st' var_lr = st var_lr
         /\ exists weight_new bias_new,
              st' var_w = scalar (Fin weight_new)
              /\ st' var_b = scalar (Fin bias_new)
              /\ (weight_new == 1 # 3)%Q /\ (bias_new == 1 # 2)%Q).
Proof.
  apply (@train_shape_errors_come_from_broadcasting (1 # 10) (1 # 3) (1 # 2)
           (Notebook.init_store (1 # 3) (1 # 2))); reflexivity.
Defined.

(** C4.  For every number of epochs and every pair of equal-length
    batches of rationals, the loop runs to its end with as many calls of
    [train] as there are epochs, each started in the store the previous
    one left; the i-th recorded loss is the one returned by the i-th call,
    so that the history has one entry per epoch.  History and final store
    are fixed by the calls alone: the printed lines are written to, never
    read. *)
Theorem training_threads_the_steps
    (epochs : nat) (x_batch y_batch : list Q)
    (learning_rate weight bias : Q) (st : store) :
  length x_batch = length y_batch ->
  st var_lr = scalar (Fin learning_rate) ->
  st var_w = scalar (Fin weight) ->
  st var_b = scalar (Fin bias) ->
  let np_x := array (map Fin x_batch) in
  let np_target := array (map Fin y_batch) in
  exists s,
    Notebook.training epochs np_x np_target st = (Ok tt, s)
    /\ length (Notebook.loss_history s) = epochs
    /\ Notebook.vars s = store_after epochs [np_x; np_target] st
    /\ forall i, i < epochs ->
         exists current_loss,
           nth_error (Notebook.loss_history s) i = Some current_loss
           /\ fst (Notebook.train [np_x; np_target]
                     (store_after i [np_x; np_target] st))
              = Ok [current_loss].
Proof.
  intros Hlen Hlr Hw Hb np_x np_target.
  assert (H : holds st learning_rate weight bias).
  { exists learning_rate, weight, bias. repeat split; auto; reflexivity. }
  destruct (training_on_data (combine x_batch y_batch) epochs H)
    as (s & Htr & Hvars & _ & Hlength & Hnth).
  rewrite lift_fst_combine, lift_snd_combine in * by assumption.
  exists s. repeat split; auto.
  intros i Hi. destruct (Hnth i Hi) as (c & Hc & Hl & _). eauto.
Qed.

Lemma training_threads_the_steps_witness :
  let np_x := array (map Fin [1; 2]%Q) in
  let np_target := array (map Fin [3; 5]%Q) in
  let st := Notebook.init_store 0 0 in
  exists s,
    Notebook.training 3 np_x np_target st = (Ok tt, s)
    /\ length (Notebook.loss_history s) = 3
    /\ Notebook.vars s = store_after 3 [np_x; np_target] st
    /\ forall i, i < 3 ->
         exists current_loss,
           nth_error (Notebook.loss_history s) i = Some current_loss
           /\ fst (Notebook.train [np_x; np_target]
                     (store_after i [np_x; np_target] st))
              = Ok [current_loss].
Proof.
  apply (@training_threads_the_steps 3 [1; 2]%Q [3; 5]%Q (1 # 10) 0 0
           (Notebook.init_store 0 0)); reflexivity.
Defined.




(** C10, as stated, fails.  On an empty batch the loss is the mean of no
    squares, 0/0, which is not a number.  On the batch [x = [1e20]],
    [y = [0]] from weight 1 and bias 0 the square overflows binary32: the
    loop records plus infinity twice, the weight becoming minus infinity
    and then infinity minus infinity, and not-a-number in the third epoch.
    Not-a-number is not at least zero. *)
Lemma loss_history_holds_not_a_number :
  let parameters := Float32.init_store (Float64.of_Z 1) (Float64.of_Z 0) in
  let none := Float32.array [] in
  let np_x := Float32.array [Float32.cast (Float64.of_Z (10 ^ 20))] in
  let np_target := Float32.array [Float32.cast (Float64.of_Z 0)] in
  fst (Float32.training 1 none none parameters) = Ok tt
  /\ Float32.loss_history (snd (Float32.training 1 none none parameters))
     = [Float32.scalar S754_nan]
  /\ fst (Float32.training 3 np_x np_target parameters) = Ok tt
  /\ Float32.loss_history (snd (Float32.training 3 np_x np_target parameters))
     = [Float32.scalar (S754_infinity false); Float32.scalar (S754_infinity false);
        Float32.scalar S754_nan]
  /\ SFleb Float32.zero S754_nan = false.
Proof. cbv zeta. repeat split; vm_compute; reflexivity. Qed.

(** C10, amended.  Whatever is fed and whatever the variables hold, and
    whether or not the loop ends normally, every loss that the loop
    records on binary32 is a scalar that is not-a-number or at least zero
    (plus infinity included): none is negative. *)
Theorem loss_history_never_negative
    (epochs : nat) (np_x np_target : Float32.ndarray) (st : Float32.store) :
  Forall never_negative
    (Float32.loss_history (snd (Float32.training epochs np_x np_target st))).
Proof.
  unfold Float32.training. apply for_range_never_negative. constructor.
Qed.




(** * Further properties of the calls and of the loop *)

(** ** What a call can raise, and what it can write *)

Lemma broadcast_raises_shape (f : num -> num -> num) (a c : ndarray) (e : exn) :
  broadcast f a c = Raise e -> is_shape_error e.
Proof.
  unfold broadcast. destruct a as [p|l1], c as [q|l2]; try discriminate.
  destruct (length l1 =? length l2); [discriminate|].
  destruct l1 as [|p [|p' l1]], l2 as [|q [|q' l2]]; try discriminate;
    intros [= <-]; exact I.
Qed.

Lemma eval_raises_shape (st : store) (fd : feed) (t : tensor) :
  fully_fed fd -> forall e, eval st fd t = Raise e -> is_shape_error e.
Proof.
  intros Hfd. induction t; intros e; cbn [eval];
    repeat match goal with
      | |- context [eval st fd ?u] =>
          let H := fresh "E" in
          destruct (eval st fd u) eqn:H; cbn [rbind]
      end;
    try discriminate; eauto using broadcast_raises_shape.
  - destruct (fd p) eqn:E; [discriminate|]. now apply Hfd in E.
  - destruct (broadcast (fun z _ => z) a a0) eqn:B; cbn [rbind]; [discriminate|].
    intros [= <-]. eauto using broadcast_raises_shape.
Qed.

Lemma bind_feed_fully_fed (np_x np_target : ndarray) :
  fully_fed (bind_feed [ph_x; ph_target] [np_x; np_target]).
Proof. intros [|]; cbn; discriminate. Qed.

Lemma train_outcome (args : list ndarray) (st : store) :
  (exists e, Notebook.train args st = (Raise e, st)
             /\ (fully_fed (bind_feed [ph_x; ph_target] args) -> is_shape_error e))
  \/ (exists c st', Notebook.train args st = (Ok [c], st')
                    /\ st' var_lr = st var_lr).
Proof.
  unfold Notebook.train, K_function, Notebook.updates. cbn [mapM fst snd].
  set (fd := bind_feed [ph_x; ph_target] args).
  destruct (eval st fd Notebook.loss) as [vl|e] eqn:El; cbn [rbind].
  2:{ left. exists e. split; [reflexivity|]. intros H. eapply eval_raises_shape; eauto. }
  destruct (eval st fd (Notebook.w - Notebook.lr * Notebook.grads_0)%T)
    as [vw|e] eqn:Ew; cbn [rbind].
  2:{ left. exists e. split; [reflexivity|]. intros H. eapply eval_raises_shape; eauto. }
  destruct (eval st fd (Notebook.b - Notebook.lr * Notebook.grads_1)%T)
    as [vb|e] eqn:Eb; cbn [rbind].
  2:{ left. exists e. split; [reflexivity|]. intros H. eapply eval_raises_shape; eauto. }
  right. eexists _, _. split; [reflexivity|]. reflexivity.
Qed.

Lemma epoch_body_outcome (args : list ndarray) (epoch : nat) (s : Notebook.session) :
  (exists e, Notebook.epoch_body args epoch s
             = (Raise e, {| Notebook.vars := Notebook.vars s;
                            Notebook.loss_history := Notebook.loss_history s;
                            Notebook.stdout := Notebook.stdout s |})
             /\ (fully_fed (bind_feed [ph_x; ph_target] args) -> is_shape_error e))
  \/ (exists s', Notebook.epoch_body args epoch s = (Ok tt, s')
                 /\ Notebook.vars s' var_lr = Notebook.vars s var_lr).
Proof.
  unfold Notebook.epoch_body.
  destruct (train_outcome args (Notebook.vars s))
    as [(e & -> & He) | (c & st' & -> & Hlr)].
  - left. eauto.
  - right. cbn [nth_error]. unfold K_eval, Notebook.w, Notebook.b. cbn [eval].
    destruct (epoch mod 20 =? 0); eexists; split; reflexivity || exact Hlr.
Qed.

(** X1.  The learning rate is read by every call and written by none: whatever
    the batches and the number of epochs, and whether or not the loop ends
    normally, it is afterwards what it was before. *)
Theorem training_never_changes_the_learning_rate
    (epochs : nat) (np_x np_target : ndarray) (st : store) :
  Notebook.vars (snd (Notebook.training epochs np_x np_target st)) var_lr
  = st var_lr.
Proof.
  unfold Notebook.training.
  set (s0 := {| Notebook.vars := st; Notebook.loss_history := [];
                Notebook.stdout := [] |}).
  change (st var_lr) with (Notebook.vars s0 var_lr).
  generalize s0 0. clear s0.
  induction epochs as [|n IH]; intros s k; [reflexivity|].
  cbn [seq Notebook.for_range].
  destruct (epoch_body_outcome [np_x; np_target] k s)
    as [(e & -> & _) | (s' & -> & Hlr)]; [reflexivity|].
  now rewrite IH.
Qed.

(** X2.  The loop can fail in one way only: with the shape error of an
    element-wise operation.  Indexing the outputs with [[0]] and reading
    the variables for the progress line never fail. *)
Theorem training_raises_only_shape_errors
    (epochs : nat) (np_x np_target : ndarray) (st : store) (e : exn) :
  fst (Notebook.training epochs np_x np_target st) = Raise e ->
  exists m n, e = ShapeError m n.
Proof.
  unfold Notebook.training.
  generalize {| Notebook.vars := st; Notebook.loss_history := [];
                Notebook.stdout := [] |} 0.
  induction epochs as [|n IH]; intros s k; [discriminate|].
  cbn [seq Notebook.for_range].
  destruct (epoch_body_outcome [np_x; np_target] k s)
    as [(e' & -> & He) | (s' & -> & _)].
  - cbn. intros [= <-]. specialize (He (bind_feed_fully_fed np_x np_target)).
    destruct e'; try contradiction. eauto.
  - apply IH.
Qed.

Lemma training_raises_only_shape_errors_witness :
  exists m n, ShapeError 3 2 = ShapeError m n.
Proof.
  apply (@training_raises_only_shape_errors 5
           (array [Fin 1; Fin 3; Fin 4]) (array [Fin 1; Fin 2])
           (Notebook.init_store 0 0) (ShapeError 3 2)).
  vm_compute. reflexivity.
Defined.

(** ** Batches that are refused *)

Lemma eval_y_array (st : store) (fd : feed) (wv bv : num) (xs : list num) :
  st var_w = scalar wv -> st var_b = scalar bv ->
  fd ph_x = Some (array xs) ->
  eval st fd Notebook.y
  = Ok (array (map (fun z => nadd z bv) (map (nmul wv) xs))).
Proof.
  intros Hw Hb Hx. unfold Notebook.y, Notebook.w, Notebook.x, Notebook.b.
  cbn [eval]. now rewrite Hw, Hb, Hx.
Qed.

Lemma train_shape_error (st : store) (wv bv : num) (xs ys : list num) :
  st var_w = scalar wv -> st var_b = scalar bv ->
  length xs <> length ys -> length xs <> 1 -> length ys <> 1 ->
  Notebook.train [array xs; array ys] st
  = (Raise (ShapeError (length xs) (length ys)), st).
Proof.
  intros Hw Hb Hne Hx Hy.
  unfold Notebook.train, K_function, Notebook.loss. cbn [mapM eval].
  rewrite (@eval_y_array st _ wv bv xs Hw Hb eq_refl).
  unfold Notebook.target. cbn [eval bind_feed placeholder_eqb rbind].
  rewrite broadcast_mismatch by (rewrite ?length_map; assumption).
  now rewrite !length_map.
Qed.

(** X3.  On batches whose lengths differ, neither being 1, the loop stops in
    its first epoch: the shape error reaches the caller, no loss has been
    recorded, no line printed and no variable written. *)
Theorem training_stops_at_the_first_shape_error
    (epochs : nat) (x_batch y_batch : list num) (weight bias : num) (st : store) :
  st var_w = scalar weight ->
  st var_b = scalar bias ->
  length x_batch <> length y_batch ->
  length x_batch <> 1 -> length y_batch <> 1 ->
  Notebook.training (S epochs) (array x_batch) (array y_batch) st
  = (Raise (ShapeError (length x_batch) (length y_batch)),
     {| Notebook.vars := st; Notebook.loss_history := []; Notebook.stdout := [] |}).
Proof.
  intros Hw Hb Hne Hx Hy.
  unfold Notebook.training. cbn [seq Notebook.for_range].
  unfold Notebook.epoch_body. cbn [Notebook.vars].
  now rewrite (@train_shape_error st weight bias x_batch y_batch Hw Hb Hne Hx Hy).
Qed.

Lemma training_stops_at_the_first_shape_error_witness :
  Notebook.training 200 (array [Fin 1; Fin 3; Fin 4]) (array [Fin 1; Fin 2])
    (Notebook.init_store 0 0)
  = (Raise (ShapeError 3 2),
     {| Notebook.vars := Notebook.init_store 0 0;
        Notebook.loss_history := []; Notebook.stdout := [] |}).
Proof.
  apply (@training_stops_at_the_first_shape_error 199
           [Fin 1; Fin 3; Fin 4] [Fin 1; Fin 2] (Fin 0) (Fin 0)
           (Notebook.init_store 0 0));
    first [reflexivity | cbn; lia].
Defined.

(** X4.  A call with fewer than the two arrays that [train] declares as inputs
    leaves a placeholder without a value: it fails and writes nothing. *)
Theorem train_needs_both_arrays
    (args : list ndarray) (weight bias : num) (st : store) :
  st var_w = scalar weight ->
  st var_b = scalar bias ->
  length args < 2 ->
  Notebook.train args st = (Raise FeedError, st).
Proof.
  intros Hw Hb Hlen.
  unfold Notebook.train, K_function, Notebook.loss, Notebook.y, Notebook.w,
    Notebook.x, Notebook.b, Notebook.target.
  destruct args as [|a [|c args]]; [| |cbn in Hlen; lia];
    cbn [mapM eval bind_feed placeholder_eqb]; rewrite ?Hw, ?Hb; [reflexivity|].
  destruct a as [p|l]; reflexivity.
Qed.

Lemma train_needs_both_arrays_witness :
  Notebook.train [array [Fin 1; Fin 2]] (Notebook.init_store 0 0)
  = (Raise FeedError, Notebook.init_store 0 0).
Proof.
  apply (@train_needs_both_arrays [array [Fin 1; Fin 2]] (Fin 0) (Fin 0)
           (Notebook.init_store 0 0));
    first [reflexivity | cbn; lia].
Defined.


(** ** What the loop prints *)

Section LoopOutput.

Variable args : list ndarray.
Variable P : store -> Prop.
Hypothesis P_step :
  forall st, P st -> exists c st', Notebook.train args st = (Ok [c], st') /\ P st'.

Lemma epoch_body_prints (epoch : nat) (s : Notebook.session) :
  P (Notebook.vars s) ->
  exists c st',
    Notebook.train args (Notebook.vars s) = (Ok [c], st') /\ P st'
    /\ Notebook.epoch_body args epoch s
       = (Ok tt,
          {| Notebook.vars := st';
             Notebook.loss_history := Notebook.loss_history s ++ [c];
             Notebook.stdout :=
               Notebook.stdout s
               ++ (if epoch mod 20 =? 0 then [(c, st' var_w, st' var_b)] else []) |}).
Proof.
  intros H. destruct (P_step H) as (c & st' & Ht & HP).
  exists c, st'. split; [exact Ht|]. split; [exact HP|].
  unfold Notebook.epoch_body. rewrite Ht. cbn [nth_error].
  destruct (epoch mod 20 =? 0); cbn; [reflexivity | now rewrite app_nil_r].
Qed.

Lemma progress_lines_cons (st st' : store) (c : ndarray) (ls : list ndarray)
    (k n : nat) :
  snd (Notebook.train args st) = st' ->
  progress_lines args st (c :: ls) k (S n)
  = (if k mod 20 =? 0 then [(c, st' var_w, st' var_b)] else [])
    ++ progress_lines args st' ls (S k) n.
Proof.
  intros Ht. unfold progress_lines. cbn [seq filter].
  assert (Htail :
    map (fun e => (nth (e - k) (c :: ls) (scalar NaN),
                   store_after (S (e - k)) args st var_w,
                   store_after (S (e - k)) args st var_b))
        (filter (fun e => e mod 20 =? 0) (seq (S k) n))
    = map (fun e => (nth (e - S k) ls (scalar NaN),
                     store_after (S (e - S k)) args st' var_w,
                     store_after (S (e - S k)) args st' var_b))
          (filter (fun e => e mod 20 =? 0) (seq (S k) n))).
  { apply map_ext_in. intros e He. apply filter_In in He. destruct He as [He _].
    apply in_seq in He. replace (e - k) with (S (e - S k)) by lia.
    cbn [nth store_after]. now rewrite Ht. }
  destruct (k mod 20 =? 0); cbn [map app]; rewrite Htail; [|reflexivity].
  rewrite Nat.sub_diag. cbn [nth store_after]. now rewrite Ht.
Qed.

Lemma for_range_prints (n : nat) :
  forall (k : nat) (s : Notebook.session),
    P (Notebook.vars s) ->
    exists s' ls,
      Notebook.for_range (Notebook.epoch_body args) (seq k n) s = (Ok tt, s')
      /\ Notebook.loss_history s' = Notebook.loss_history s ++ ls
      /\ length ls = n
      /\ Notebook.stdout s'
         = Notebook.stdout s ++ progress_lines args (Notebook.vars s) ls k n.
Proof.
  induction n as [|n IH]; intros k s H.
  - exists s, []. cbn. now rewrite !app_nil_r.
  - destruct (epoch_body_prints k s H) as (c & st' & Ht & HP & Hbody).
    cbn [seq Notebook.for_range]. rewrite Hbody.
    destruct (IH (S k)
                {| Notebook.vars := st';
                   Notebook.loss_history := Notebook.loss_history s ++ [c];
                   Notebook.stdout :=
                     Notebook.stdout s
                     ++ (if k mod 20 =? 0 then [(c, st' var_w, st' var_b)] else []) |}
                HP)
      as (s' & ls & Hfor & Hls & Hlen & Hout).
    cbn [Notebook.vars Notebook.loss_history Notebook.stdout] in *.
    exists s', (c :: ls). split; [exact Hfor|].
    split; [now rewrite Hls, <- app_assoc|]. split; [cbn; lia|].
    rewrite Hout, <- app_assoc. f_equal. symmetry.
    apply progress_lines_cons. now rewrite Ht.
Qed.

End LoopOutput.

Lemma train_holds_step (l : list (Q * Q)) (lrv : Q) (st : store) :
  (exists wv bv, holds st lrv wv bv) ->
  exists c st',
    Notebook.train [lift fst l; lift snd l] st = (Ok [c], st')
    /\ exists wv bv, holds st' lrv wv bv.
Proof.
  intros (wv & bv & H).
  destruct (train_holds l H) as (c & st' & Ht & _ & H'). eauto 6.
Qed.

Lemma training_prints (l : list (Q * Q)) (lrv : Q) (epochs : nat) (st : store) :
  (exists wv bv, holds st lrv wv bv) ->
  exists s,
    Notebook.training epochs (lift fst l) (lift snd l) st = (Ok tt, s)
    /\ length (Notebook.loss_history s) = epochs
    /\ Notebook.stdout s
       = progress_lines [lift fst l; lift snd l] st (Notebook.loss_history s)
           0 epochs.
Proof.
  intros H. unfold Notebook.training.
  destruct (@for_range_prints [lift fst l; lift snd l]
              (fun st => exists wv bv, holds st lrv wv bv)
              (@train_holds_step l lrv) epochs 0
              {| Notebook.vars := st;
                 Notebook.loss_history := []; Notebook.stdout := [] |} H)
    as (s & ls & Hfor & Hls & Hlength & Hout).
  cbn [Notebook.vars Notebook.loss_history Notebook.stdout app] in *.
  exists s. rewrite Hls. auto.
Qed.

Lemma progress_lines_200 (args : list ndarray) (st : store) (ls : list ndarray) :
  progress_lines args st ls 0 200
  = map (fun e => (nth e ls (scalar NaN),
                   store_after (S e) args st var_w,
                   store_after (S e) args st var_b))
        [0; 20; 40; 60; 80; 100; 120; 140; 160; 180].
Proof.
  unfold progress_lines.
  assert (E : filter (fun e => e mod 20 =? 0) (seq 0 200)
              = [0; 20; 40; 60; 80; 100; 120; 140; 160; 180])
    by (vm_compute; reflexivity).
  rewrite E. apply map_ext. intros e. now rewrite Nat.sub_0_r.
Qed.

Lemma nth_error_multiples_of_20 (k : nat) :
  k < 10 ->
  nth_error [0; 20; 40; 60; 80; 100; 120; 140; 160; 180] k = Some (20 * k).
Proof.
  intros Hk. do 10 (destruct k as [|k]; [reflexivity|]). lia.
Qed.

(** X5.  The notebook prints ten lines, for the epochs 0, 20, ..., 180.  A
    line shows the loss recorded in its epoch, which was computed before
    the update of that epoch, next to the weight and the bias after that
    update. *)
Theorem run_prints_ten_lines (r1 r2 : Q) (np_x : list Q) :
  let args := [array (map Fin np_x);
               array (map Fin (Notebook.np_target np_x))] in
  exists s,
    Notebook.run r1 r2 np_x = (Ok tt, s)
    /\ length (Notebook.stdout s) = 10
    /\ forall k, k < 10 ->
         exists current_loss,
           nth_error (Notebook.loss_history s) (20 * k) = Some current_loss
           /\ nth_error (Notebook.stdout s) k
              = Some (current_loss,
                      store_after (S (20 * k)) args (Notebook.init_store r1 r2) var_w,
                      store_after (S (20 * k)) args (Notebook.init_store r1 r2) var_b).
Proof.
  intros args. unfold Notebook.run.
  assert (Hlen := np_target_length np_x).
  destruct (@training_prints (combine np_x (Notebook.np_target np_x)) (1 # 10)
              200 (Notebook.init_store r1 r2))
    as (s & Htr & Hlength & Hout).
  { eauto using init_store_holds. }
  rewrite progress_lines_200 in Hout.
  rewrite lift_fst_combine, lift_snd_combine in Htr, Hout by assumption.
  fold args in Hout.
  exists s. split; [exact Htr|].
  rewrite Hout, length_map. split; [reflexivity|].
  intros k Hk.
  exists (nth (20 * k) (Notebook.loss_history s) (scalar NaN)).
  split; [apply nth_error_nth'; lia|].
  apply (map_nth_error
           (fun e => (nth e (Notebook.loss_history s) (scalar NaN),
                      store_after (S e) args (Notebook.init_store r1 r2) var_w,
                      store_after (S e) args (Notebook.init_store r1 r2) var_b))).
  now apply nth_error_multiples_of_20.
Qed.

(** ** Runs compose *)

Lemma store_after_add (n m : nat) (args : list ndarray) :
  forall st, store_after (n + m) args st = store_after m args (store_after n args st).
Proof. induction n as [|n IH]; intros st; cbn [Nat.add store_after]; auto. Qed.

(** X6.  Training for [n + m] epochs is training for [n] epochs and then for
    [m] more from the store that is left: the loss history is the
    concatenation of the two histories and the final store is that of the
    second run. *)
Theorem training_composes
    (n m : nat) (x_batch y_batch : list Q)
    (learning_rate weight bias : Q) (st : store) :
  length x_batch = length y_batch ->
  st var_lr = scalar (Fin learning_rate) ->
  st var_w = scalar (Fin weight) ->
  st var_b = scalar (Fin bias) ->
  let np_x := array (map Fin x_batch) in
  let np_target := array (map Fin y_batch) in
  exists s1 s2 s,
    Notebook.training n np_x np_target st = (Ok tt, s1)
    /\ Notebook.training m np_x np_target (Notebook.vars s1) = (Ok tt, s2)
    /\ Notebook.training (n + m) np_x np_target st = (Ok tt, s)
    /\ Notebook.loss_history s
       = Notebook.loss_history s1 ++ Notebook.loss_history s2
    /\ Notebook.vars s = Notebook.vars s2.
Proof.
  intros Hlen Hlr Hw Hb np_x np_target.
  assert (H : holds st learning_rate weight bias).
  { exists learning_rate, weight, bias. repeat split; auto; reflexivity. }
  set (l := combine x_batch y_batch).
  assert (Ex : np_x = lift fst l) by (symmetry; now apply lift_fst_combine).
  assert (Ey : np_target = lift snd l) by (symmetry; now apply lift_snd_combine).
  rewrite Ex, Ey. set (args := [lift fst l; lift snd l]).
  destruct (training_on_data l n H) as (s1 & Htr1 & Hv1 & Hh1 & Hl1 & Hn1).
  destruct (training_on_data l m Hh1) as (s2 & Htr2 & Hv2 & _ & Hl2 & Hn2).
  destruct (training_on_data l (n + m) H) as (s & Htr & Hv & _ & Hl & Hn).
  fold args in Hv1, Hv2, Hv, Hn1, Hn2, Hn.
  exists s1, s2, s. repeat split; try assumption.
  - apply nth_error_ext. intros i.
    destruct (Nat.lt_ge_cases i n) as [Hi | Hi].
    + rewrite nth_error_app1 by lia.
      destruct (Hn i ltac:(lia)) as (c & -> & Ht & _).
      destruct (Hn1 i Hi) as (c1 & -> & Ht1 & _). congruence.
    + destruct (Nat.lt_ge_cases i (n + m)) as [Hi' | Hi'].
      * rewrite nth_error_app2 by lia. rewrite Hl1.
        destruct (Hn i Hi') as (c & -> & Ht & _).
        destruct (Hn2 (i - n) ltac:(lia)) as (c2 & -> & Ht2 & _).
        rewrite Hv1, <- store_after_add in Ht2.
        replace (n + (i - n)) with i in Ht2 by lia. congruence.
      * rewrite (proj2 (nth_error_None _ _)) by lia.
        symmetry. apply nth_error_None. rewrite length_app. lia.
  - now rewrite Hv, Hv2, Hv1, store_after_add.
Qed.

Lemma training_composes_witness :
  let np_x := array (map Fin [1; 2]%Q) in
  let np_target := array (map Fin [3; 5]%Q) in
  exists s1 s2 s,
    Notebook.training 2 np_x np_target (Notebook.init_store 0 0) = (Ok tt, s1)
    /\ Notebook.training 3 np_x np_target (Notebook.vars s1) = (Ok tt, s2)
    /\ Notebook.training (2 + 3) np_x np_target (Notebook.init_store 0 0) = (Ok tt, s)
    /\ Notebook.loss_history s
       = Notebook.loss_history s1 ++ Notebook.loss_history s2
    /\ Notebook.vars s = Notebook.vars s2.
Proof.
  apply (@training_composes 2 3 [1; 2]%Q [3; 5]%Q (1 # 10) 0 0
           (Notebook.init_store 0 0)); reflexivity.
Defined.

(** ** Stationary points *)

Lemma Qsum_zero_terms (A : Type) (f : A -> Q) (l : list A) :
  (forall z, In z l -> (0 <= f z)%Q) ->
  (Qsum (map f l) == 0)%Q ->
  forall z, In z l -> (f z == 0)%Q.
Proof.
  induction l as [|a l' IH]; cbn [map Qsum fold_right]; intros Hpos Hsum z Hz;
    [destruct Hz|].
  fold (Qsum (map f l')) in Hsum.
  assert (H0 : (0 <= f a)%Q) by (apply Hpos; now left).
  assert (H1 : (0 <= Qsum (map f l'))%Q).
  { apply Qsum_map_nonneg. intros y Hy. apply Hpos. now right. }
  destruct Hz as [<- | Hz]; [lra|].
  apply IH; [intros y Hy; apply Hpos; now right | lra | exact Hz].
Qed.

Lemma zero_loss_zero_gradient (wv bv : Q) (l : list (Q * Q)) :
  l <> [] ->
  (mse wv bv l == 0)%Q ->
  (grad_weight wv bv l == 0)%Q /\ (grad_bias wv bv l == 0)%Q.
Proof.
  intros Hl Hm. pose proof (Qnat_length_pos Hl) as HN.
  assert (Hr : forall z, In z l -> (residual wv bv z == 0)%Q).
  { intros z Hz.
    assert (H2 : (residual wv bv z * residual wv bv z == 0)%Q).
    { apply (@Qsum_zero_terms _ (fun z => residual wv bv z * residual wv bv z)%Q l);
        [intros y _; apply Qsq_nonneg | | exact Hz].
      unfold mse, Qmean in Hm. rewrite length_map in Hm.
      apply Qmult_inj_r with (z := (/ Qnat (length l))%Q).
      - intros E. assert (0 < / Qnat (length l))%Q by now apply Qinv_lt_0_compat.
        lra.
      - unfold Qdiv in Hm. rewrite Hm. ring. }
    apply Qmult_integral in H2. tauto. }
  unfold grad_weight, grad_bias, Qmean. rewrite !length_map. split.
  - rewrite Qsum_map_ext with (g := fun _ => 0%Q).
    + rewrite Qsum_map_const. field. lra.
    + intros z Hz. rewrite (Hr z Hz). ring.
  - rewrite Qsum_map_ext with (g := fun _ => 0%Q).
    + rewrite Qsum_map_const. field. lra.
    + intros z Hz. rewrite (Hr z Hz). ring.
Qed.



(** ** The order of the data *)

Lemma Qsum_perm (l l' : list Q) : Permutation l l' -> (Qsum l == Qsum l')%Q.
Proof.
  induction 1; cbn [Qsum fold_right];
    repeat match goal with |- context [fold_right Qplus 0%Q ?k] =>
             change (fold_right Qplus 0%Q k) with (Qsum k) end.
  - reflexivity.
  - now rewrite IHPermutation.
  - ring.
  - now rewrite IHPermutation1.
Qed.

Lemma Qmean_map_perm (A : Type) (f : A -> Q) (l l' : list A) :
  Permutation l l' -> (Qmean (map f l) == Qmean (map f l'))%Q.
Proof.
  intros H. unfold Qmean.
  rewrite (Qsum_perm (Permutation_map f H)), !length_map,
    (Permutation_length H). reflexivity.
Qed.

Lemma lift_as_array (h : Q * Q -> Q) (l : list (Q * Q)) :
  lift h l = array (map Fin (map h l)).
Proof. unfold lift. now rewrite map_map. Qed.




(** ** Batches of arbitrary run-time numbers *)

Lemma broadcast_scalars (f : num -> num -> num) (a c : num) :
  broadcast f (scalar a) (scalar c) = Ok (scalar (f a c)).
Proof. reflexivity. Qed.

Section NumLifted.

Variable l : list (num * num).

Lemma broadcast_nlift_nlift (f : num -> num -> num) (h1 h2 : num * num -> num) :
  broadcast f (nlift h1 l) (nlift h2 l) = Ok (nlift (fun z => f (h1 z) (h2 z)) l).
Proof.
  unfold broadcast, nlift. rewrite !length_map, Nat.eqb_refl.
  do 2 f_equal. unfold map2.
  induction l as [|z l' IH]; simpl; [reflexivity | now rewrite IH].
Qed.

Lemma broadcast_scalar_nlift (f : num -> num -> num) (a : num) (h : num * num -> num) :
  broadcast f (scalar a) (nlift h l) = Ok (nlift (fun z => f a (h z)) l).
Proof. unfold broadcast, nlift. now rewrite map_map. Qed.

Lemma broadcast_nlift_scalar (f : num -> num -> num) (h : num * num -> num) (a : num) :
  broadcast f (nlift h l) (scalar a) = Ok (nlift (fun z => f (h z) a) l).
Proof. unfold broadcast, nlift. now rewrite map_map. Qed.

Lemma amap_nlift (f : num -> num) (h : num * num -> num) :
  amap f (nlift h l) = nlift (fun z => f (h z)) l.
Proof. unfold amap, nlift. now rewrite map_map. Qed.

Lemma total_nlift (h : num * num -> num) : total (nlift h l) = nsum (map h l).
Proof. reflexivity. Qed.

Lemma sum_to_nlift_scalar (h : num * num -> num) (a : num) :
  sum_to (nlift h l) (scalar a) = scalar (nsum (map h l)).
Proof. reflexivity. Qed.

Lemma sum_to_nlift_nlift (h h' : num * num -> num) :
  sum_to (nlift h l) (nlift h' l) = nlift h l.
Proof. unfold sum_to, nlift. now rewrite !length_map, Nat.eqb_refl. Qed.

Lemma div_count_scalar_nlift (g : num) (h : num * num -> num) :
  (r <- broadcast (fun z _ => z) (scalar g) (nlift h l) ;;
   Ok (amap (fun z => ndiv_count z (size (nlift h l))) r))
  = Ok (nlift (fun _ => ndiv_count g (length l)) l).
Proof.
  unfold broadcast, nlift, amap, rbind, size. rewrite !map_map, length_map.
  reflexivity.
Qed.

End NumLifted.

Section NumStep.

Variables (l : list (num * num)) (st : store) (lrv wv bv : num).
Hypothesis Hlr : st var_lr = scalar lrv.
Hypothesis Hw : st var_w = scalar wv.
Hypothesis Hb : st var_b = scalar bv.

Ltac unfold_graph :=
  unfold Notebook.grads_0, Notebook.grads_1, Notebook.grads, K_gradients,
    Notebook.loss, Notebook.y, Notebook.w, Notebook.x, Notebook.b,
    Notebook.lr, Notebook.target;
  cbn [map nth].

Ltac num_eval :=
  repeat (cbn [eval rbind bind_feed placeholder_eqb variable_eqb grad amap
                 sum_to total];
          rewrite ?Hlr, ?Hw, ?Hb, ?broadcast_nlift_nlift, ?broadcast_scalar_nlift,
            ?broadcast_nlift_scalar, ?broadcast_scalars, ?amap_nlift,
            ?sum_to_nlift_scalar, ?sum_to_nlift_nlift, ?div_count_scalar_nlift,
            ?total_nlift).

(** The call on equal-length batches of any numbers, number by number in
    the order of the graph. *)
Lemma train_numbers :
  exists st',
    Notebook.train [nlift fst l; nlift snd l] st
    = (Ok [scalar (mean (nlift (fun z => nmul (nresidual wv bv z)
                                              (nresidual wv bv z)) l))], st')
    /\ st' var_lr = scalar lrv
    /\ st' var_w
       = scalar (nsub wv (nmul lrv
           (nadd (nadd (nadd
              (nsum (map (fun z => nmul (nmul (ndiv_count (Fin 1) (length l))
                                              (nmul (Fin 2) (nresidual wv bv z)))
                                        (fst z)) l))
              (Fin 0)) (Fin 0)) (Fin 0))))
    /\ st' var_b
       = scalar (nsub bv (nmul lrv
           (nadd (nadd (nadd (Fin 0) (Fin 0))
              (nsum (map (fun z => nmul (ndiv_count (Fin 1) (length l))
                                        (nmul (Fin 2) (nresidual wv bv z))) l)))
              (Fin 0)))).
Proof.
  unfold Notebook.train, K_function, Notebook.updates. cbn [mapM fst snd].
  unfold_graph. num_eval.
  eexists. split; [reflexivity|]. cbn. rewrite Hlr. repeat split.
Qed.

End NumStep.

(** ** Not-a-number *)

Lemma num_lift2_nan_r (f : Q -> Q -> Q) (a : num) : num_lift2 f a NaN = NaN.
Proof. now destruct a. Qed.

Lemma nsum_nan (l : list num) : In NaN l -> nsum l = NaN.
Proof.
  induction l as [|a l IH]; intros H; [destruct H|].
  cbn [nsum fold_right]. destruct H as [-> | H]; [reflexivity|].
  fold (nsum l). rewrite (IH H). apply num_lift2_nan_r.
Qed.

Lemma nsum_map_nan (A : Type) (f : A -> num) (l : list A) (z : A) :
  In z l -> f z = NaN -> nsum (map f l) = NaN.
Proof. intros Hz E. apply nsum_nan. rewrite <- E. now apply in_map. Qed.

Lemma poisoned_residual (wv bv : num) (l : list (num * num)) :
  l <> [] -> poisoned wv bv l ->
  exists z, In z l /\ nresidual wv bv z = NaN.
Proof.
  intros Hl [-> | [-> | (z & Hz & [E | E])]].
  - destruct l as [|z l]; [congruence|]. exists z. split; [now left | reflexivity].
  - destruct l as [|z l]; [congruence|]. exists z. split; [now left|].
    unfold nresidual, nadd. now rewrite num_lift2_nan_r.
  - exists z. split; [exact Hz|]. unfold nresidual, nmul. rewrite E.
    now rewrite num_lift2_nan_r.
  - exists z. split; [exact Hz|]. unfold nresidual, nsub. rewrite E.
    now rewrite num_lift2_nan_r.
Qed.

(** One call on poisoned numbers: the loss, the weight and the bias all
    come out as not-a-number. *)
Lemma train_poisoned (l : list (num * num)) (st : store) (lrv wv bv : num) :
  st var_lr = scalar lrv -> st var_w = scalar wv -> st var_b = scalar bv ->
  l <> [] -> poisoned wv bv l ->
  exists st',
    Notebook.train [nlift fst l; nlift snd l] st = (Ok [scalar NaN], st')
    /\ st' var_lr = scalar lrv
    /\ st' var_w = scalar NaN
    /\ st' var_b = scalar NaN.
Proof.
  intros Hlr Hw Hb Hl Hp.
  destruct (@poisoned_residual wv bv l Hl Hp) as (z & Hz & E).
  destruct (@train_numbers l st lrv wv bv Hlr Hw Hb) as (st' & Ht & Hlr' & Hw' & Hb').
  exists st'. rewrite Ht, Hlr', Hw', Hb'.
  rewrite (@nsum_map_nan _ _ l z Hz)
    by (rewrite E; unfold nmul; now rewrite !num_lift2_nan_r).
  rewrite (@nsum_map_nan _
             (fun z => nmul (ndiv_count (Fin 1) (length l))
                            (nmul (Fin 2) (nresidual wv bv z))) l z Hz)
    by (rewrite E; unfold nmul; now rewrite !num_lift2_nan_r).
  unfold mean. rewrite total_nlift.
  rewrite (@nsum_map_nan _ _ l z Hz) by (now rewrite E).
  cbn. unfold nsub, nmul. rewrite !num_lift2_nan_r. repeat split.
Qed.

Lemma store_after_keeps (args : list ndarray) (P : store -> Prop) :
  (forall st, P st ->
     exists c st', Notebook.train args st = (Ok [c], st') /\ P st') ->
  forall n st, P st -> P (store_after n args st).
Proof.
  intros Hstep. induction n as [|n IH]; intros st H; [exact H|].
  destruct (Hstep st H) as (c & st' & Ht & H').
  cbn [store_after]. rewrite Ht. now apply IH.
Qed.

Lemma nlift_fst_combine (xs ys : list num) :
  length xs = length ys -> nlift fst (combine xs ys) = array xs.
Proof.
  unfold nlift. intros H. f_equal. revert ys H.
  induction xs as [|a xs IH]; intros [|c ys] H; simpl in *; try discriminate;
    [reflexivity | f_equal; apply IH; congruence].
Qed.

Lemma nlift_snd_combine (xs ys : list num) :
  length xs = length ys -> nlift snd (combine xs ys) = array ys.
Proof.
  unfold nlift. intros H. f_equal. revert ys H.
  induction xs as [|a xs IH]; intros [|c ys] H; simpl in *; try discriminate;
    [reflexivity | f_equal; apply IH; congruence].
Qed.

Lemma in_combine_left (A B : Type) (xs : list A) (ys : list B) (a : A) :
  length xs = length ys -> In a xs -> exists c, In (a, c) (combine xs ys).
Proof.
  revert ys. induction xs as [|x xs IH]; intros [|y ys] H Ha; simpl in *;
    try discriminate; try contradiction.
  destruct Ha as [-> | Ha]; [eauto|].
  destruct (IH ys ltac:(congruence) Ha) as (c & Hc). eauto.
Qed.

Lemma in_combine_right (A B : Type) (xs : list A) (ys : list B) (c : B) :
  length xs = length ys -> In c ys -> exists a, In (a, c) (combine xs ys).
Proof.
  revert ys. induction xs as [|x xs IH]; intros [|y ys] H Hc; simpl in *;
    try discriminate; try contradiction.
  destruct Hc as [-> | Hc]; [eauto|].
  destruct (IH ys ltac:(congruence) Hc) as (a & Ha). eauto.
Qed.

(** X10.  Not-a-number is never lost.  When the weight, the bias or an element
    of either batch is not a number, every loss the loop records is not a
    number, and from the first epoch on neither are the weight and the
    bias. *)
Theorem training_never_recovers_from_nan
    (epochs : nat) (x_batch y_batch : list num)
    (learning_rate weight bias : num) (st : store) :
  length x_batch = length y_batch ->
  x_batch <> [] ->
  st var_lr = scalar learning_rate ->
  st var_w = scalar weight ->
  st var_b = scalar bias ->
  weight = NaN \/ bias = NaN \/ In NaN x_batch \/ In NaN y_batch ->
  exists s,
    Notebook.training epochs (array x_batch) (array y_batch) st = (Ok tt, s)
    /\ length (Notebook.loss_history s) = epochs
    /\ Forall (eq (scalar NaN)) (Notebook.loss_history s)
    /\ (0 < epochs ->
        Notebook.vars s var_w = scalar NaN /\ Notebook.vars s var_b = scalar NaN).
Proof.
  intros Hlen Hne Hlr Hw Hb Hnan.
  set (l := combine x_batch y_batch).
  assert (Hl : l <> []) by (now apply combine_nonempty).
  rewrite <- (@nlift_fst_combine x_batch y_batch Hlen),
    <- (@nlift_snd_combine x_batch y_batch Hlen). fold l.
  set (args := [nlift fst l; nlift snd l]).
  set (P := fun st : store =>
              exists lr0 w0 b0,
                st var_lr = scalar lr0 /\ st var_w = scalar w0
                /\ st var_b = scalar b0 /\ poisoned w0 b0 l).
  set (P2 := fun st : store =>
               (exists lr0, st var_lr = scalar lr0)
               /\ st var_w = scalar NaN /\ st var_b = scalar NaN).
  assert (Hstep : forall st0, P st0 ->
            Notebook.train args st0 = (Ok [scalar NaN], snd (Notebook.train args st0))
            /\ P2 (snd (Notebook.train args st0))).
  { intros st0 (lr0 & w0 & b0 & H1 & H2 & H3 & Hp).
    destruct (@train_poisoned l st0 lr0 w0 b0 H1 H2 H3 Hl Hp) as (st' & Ht & Hlr' & Hw' & Hb').
    fold args in Ht. rewrite Ht. cbn [snd]. split; [reflexivity|].
    repeat split; eauto. }
  assert (H21 : forall st0, P2 st0 -> P st0).
  { intros st0 ((lr0 & H1) & H2 & H3). exists lr0, NaN, NaN.
    repeat split; auto. now left. }
  assert (HP : P st).
  { exists learning_rate, weight, bias. repeat split; auto.
    destruct Hnan as [H | [H | [H | H]]]; [now left | right; now left | |].
    - right; right. destruct (@in_combine_left _ _ x_batch y_batch NaN Hlen H) as (c & Hc).
      exists (NaN, c). split; [exact Hc | now left].
    - right; right. destruct (@in_combine_right _ _ x_batch y_batch NaN Hlen H) as (a & Ha).
      exists (a, NaN). split; [exact Ha | now right]. }
  assert (Hstep1 : forall st0, P st0 ->
            exists c st', Notebook.train args st0 = (Ok [c], st') /\ P st').
  { intros st0 H0. destruct (Hstep st0 H0) as [Ht H2]. eauto. }
  assert (Hstep2 : forall st0, P2 st0 ->
            exists c st', Notebook.train args st0 = (Ok [c], st') /\ P2 st').
  { intros st0 H0. destruct (Hstep st0 (H21 st0 H0)) as [Ht H2]. eauto. }
  destruct (@for_range_ok args P Hstep1 epochs 0
              {| Notebook.vars := st; Notebook.loss_history := [];
                 Notebook.stdout := [] |} HP)
    as (s & Hfor & Hvars & _ & ls & Hls & Hlength & Hnth).
  cbn [Notebook.vars Notebook.loss_history app] in *.
  exists s. split; [exact Hfor|]. split; [now rewrite Hls|]. split.
  - rewrite Hls. apply Forall_forall. intros a Ha.
    destruct (In_nth_error _ _ Ha) as (i & Hi).
    assert (Hlt : i < epochs).
    { rewrite <- Hlength. apply nth_error_Some. congruence. }
    destruct (Hnth i Hlt) as (c & Hc & Ht).
    rewrite Hi in Hc. injection Hc as ->.
    destruct (Hstep _ (@store_after_keeps args P Hstep1 i st HP)) as [Ht' _].
    rewrite Ht' in Ht. cbn in Ht. congruence.
  - intros Hpos. destruct epochs as [|n]; [lia|].
    rewrite Hvars. cbn [store_after].
    destruct (Hstep st HP) as [_ H2].
    destruct (@store_after_keeps args P2 Hstep2 n _ H2) as (_ & E1 & E2).
    now split.
Qed.

Lemma training_never_recovers_from_nan_witness :
  exists s,
    Notebook.training 3 (array [Fin 1; NaN]) (array [Fin 3; Fin 5])
      (Notebook.init_store 0 0)
    = (Ok tt, s)
    /\ length (Notebook.loss_history s) = 3
    /\ Forall (eq (scalar NaN)) (Notebook.loss_history s)
    /\ (0 < 3 ->
        Notebook.vars s var_w = scalar NaN /\ Notebook.vars s var_b = scalar NaN).
Proof.
  apply (@training_never_recovers_from_nan 3 [Fin 1; NaN] [Fin 3; Fin 5]
           (Fin (1 # 10)) (Fin 0) (Fin 0) (Notebook.init_store 0 0));
    first [reflexivity | discriminate | idtac].
  right; right; left. right; left. reflexivity.
Defined.

(** ** A batch of one element against a batch of many *)

Lemma broadcast_lift_single (f : Q -> Q -> Q) (h : Q * Q -> Q) (l : list (Q * Q))
    (c : Q) :
  broadcast (num_lift2 f) (lift h l) (array [Fin c])
  = Ok (lift (fun z => f (h z) c) l).
Proof.
  unfold lift. destruct l as [|z [|z' l]]; try reflexivity.
  unfold broadcast. cbn [length map Nat.eqb]. now rewrite map_map.
Qed.

Section OneTarget.

Local Open Scope Q_scope.

Variables (l : list (Q * Q)) (c : Q) (st : store) (lrv wv bv : Q).
Hypothesis Hc : forall z, In z l -> snd z = c.
Hypothesis Hlr : st var_lr = scalar (Fin lrv).
Hypothesis Hw : st var_w = scalar (Fin wv).
Hypothesis Hb : st var_b = scalar (Fin bv).

Ltac unfold_graph :=
  unfold Notebook.grads_0, Notebook.grads_1, Notebook.grads, K_gradients,
    Notebook.loss, Notebook.y, Notebook.w, Notebook.x, Notebook.b,
    Notebook.lr, Notebook.target;
  cbn [map nth].

Ltac sym_eval :=
  repeat (cbn [eval rbind bind_feed placeholder_eqb variable_eqb grad amap
                 sum_to total];
          unfold nmul, nadd, nsub;
          rewrite ?Hlr, ?Hw, ?Hb, ?broadcast_lift_single, ?broadcast_lift_lift,
            ?broadcast_scalar_lift, ?broadcast_lift_scalar,
            ?broadcast_scalar_scalar, ?amap_square_lift, ?amap_neg_lift,
            ?amap_ones_lift, ?sum_to_lift_scalar, ?sum_to_lift_lift,
            ?div_count_scalar_lift, ?total_lift).

Lemma residual_one_target (z : Q * Q) :
  In z l -> wv * fst z + bv - c == residual wv bv z.
Proof. intros Hz. unfold residual. now rewrite (Hc z Hz). Qed.

Lemma train_one_target :
  exists loss st' w' b',
    Notebook.train [lift fst l; array [Fin c]] st = (Ok [scalar loss], st')
    /\ num_eq loss (loss_value wv bv l)
    /\ st' var_w = scalar (Fin w') /\ st' var_b = scalar (Fin b')
    /\ w' == wv - lrv * grad_weight wv bv l
    /\ b' == bv - lrv * grad_bias wv bv l.
Proof.
  unfold Notebook.train, K_function, Notebook.updates. cbn [mapM fst snd].
  unfold_graph. sym_eval. rewrite mean_lift.
  do 4 eexists. split; [reflexivity|]. cbn [assign_all fold_left set_var fst snd
    variable_eqb]. split; [|split; [reflexivity|split; [reflexivity|]]].
  - assert (E : Qmean (map (fun z => (wv * fst z + bv - c) * (wv * fst z + bv - c)) l)
                == mse wv bv l).
    { unfold mse, Qmean. rewrite !length_map.
      rewrite Qsum_map_ext
        with (g := fun z => residual wv bv z * residual wv bv z); [reflexivity|].
      intros y Hy. now rewrite (residual_one_target y Hy). }
    revert E. unfold loss_value. destruct l; [intros _; exact I | intros E; exact E].
  - split.
    + unfold grad_weight, Qmean. rewrite !length_map.
      rewrite Qsum_map_ext
        with (g := fun z => (1 / Qnat (length l))
                            * (2 * residual wv bv z * fst z)).
      * rewrite Qsum_map_scal. unfold Qdiv. ring.
      * intros y Hy. rewrite (residual_one_target y Hy). ring.
    + unfold grad_bias, Qmean. rewrite !length_map.
      rewrite Qsum_map_ext
        with (g := fun z => (1 / Qnat (length l)) * (2 * residual wv bv z)).
      * rewrite Qsum_map_scal. unfold Qdiv. ring.
      * intros y Hy. rewrite (residual_one_target y Hy). ring.
Qed.

End OneTarget.


Lemma broadcast_scalar_single (f : Q -> Q -> Q) (p a : Q) :
  broadcast (num_lift2 f) (scalar (Fin p)) (single a) = Ok (single (f p a)).
Proof. reflexivity. Qed.

Lemma broadcast_single_scalar (f : Q -> Q -> Q) (a p : Q) :
  broadcast (num_lift2 f) (single a) (scalar (Fin p)) = Ok (single (f a p)).
Proof. reflexivity. Qed.

Lemma broadcast_single_single (f : Q -> Q -> Q) (a c : Q) :
  broadcast (num_lift2 f) (single a) (single c) = Ok (single (f a c)).
Proof. reflexivity. Qed.

Lemma broadcast_single_lift (f : Q -> Q -> Q) (a : Q) (h : Q * Q -> Q)
    (l : list (Q * Q)) :
  broadcast (num_lift2 f) (single a) (lift h l)
  = Ok (lift (fun z => f a (h z)) l).
Proof.
  unfold lift, single. destruct l as [|z [|z' l]]; try reflexivity.
  unfold broadcast. cbn [length map Nat.eqb]. now rewrite map_map.
Qed.

Lemma sum_to_single_single (g a : Q) : sum_to (single g) (single a) = single g.
Proof. reflexivity. Qed.

Lemma sum_to_single_scalar (g : Q) (p : num) :
  sum_to (single g) (scalar p) = scalar (Fin (g + 0)).
Proof. reflexivity. Qed.

Lemma total_single (g : Q) : total (single g) = Fin (g + 0).
Proof. reflexivity. Qed.

Lemma sum_to_lift_single (g : Q * Q -> Q) (l : list (Q * Q)) (a : Q) :
  exists total_g,
    sum_to (lift g l) (single a) = single total_g
    /\ (total_g == Qsum (map g l))%Q.
Proof.
  destruct l as [|z [|z' l]].
  - exists 0%Q. split; reflexivity.
  - exists (g z). split; [reflexivity|]. cbn. ring.
  - exists (Qsum (map g (z :: z' :: l))). split; [|reflexivity].
    unfold single. rewrite <- total_lift. reflexivity.
Qed.

Section OneInput.

Local Open Scope Q_scope.

Variables (l : list (Q * Q)) (a : Q) (st : store) (lrv wv bv : Q).
Hypothesis Ha : forall z, In z l -> fst z = a.
Hypothesis Hlr : st var_lr = scalar (Fin lrv).
Hypothesis Hw : st var_w = scalar (Fin wv).
Hypothesis Hb : st var_b = scalar (Fin bv).

Ltac unfold_graph :=
  unfold Notebook.grads_0, Notebook.grads_1, Notebook.grads, K_gradients,
    Notebook.loss, Notebook.y, Notebook.w, Notebook.x, Notebook.b,
    Notebook.lr, Notebook.target;
  cbn [map nth].

Ltac sym_eval :=
  repeat (cbn [eval rbind bind_feed placeholder_eqb variable_eqb grad amap
                 sum_to total];
          unfold nmul, nadd, nsub;
          rewrite ?Hlr, ?Hw, ?Hb, ?broadcast_scalar_single,
            ?broadcast_single_scalar, ?broadcast_single_single,
            ?broadcast_single_lift, ?sum_to_single_single,
            ?sum_to_single_scalar, ?total_single, ?broadcast_lift_lift,
            ?broadcast_scalar_lift, ?broadcast_lift_scalar,
            ?broadcast_scalar_scalar, ?amap_square_lift, ?amap_neg_lift,
            ?amap_ones_lift, ?sum_to_lift_scalar, ?sum_to_lift_lift,
            ?div_count_scalar_lift, ?total_lift).

Lemma train_one_input :
  exists loss st' w' b',
    Notebook.train [single a; lift snd l] st = (Ok [scalar loss], st')
    /\ num_eq loss (loss_value wv bv l)
    /\ st' var_w = scalar (Fin w') /\ st' var_b = scalar (Fin b')
    /\ w' == wv - lrv * grad_weight wv bv l
    /\ b' == bv - lrv * grad_bias wv bv l.
Proof.
  unfold Notebook.train, K_function, Notebook.updates. cbn [mapM fst snd].
  unfold_graph. sym_eval.
  match goal with
  | |- context [sum_to (lift ?g l) (single ?p)] =>
      destruct (sum_to_lift_single g l p) as (total_g & E & Hg); rewrite E; clear E
  end.
  sym_eval. rewrite mean_lift.
  assert (Hr : forall z, In z l -> wv * a + bv - snd z == residual wv bv z).
  { intros z Hz. unfold residual. now rewrite (Ha z Hz). }
  assert (Hg' : total_g
                == (1 / Qnat (length l)) * Qsum (map (fun z => 2 * residual wv bv z) l)).
  { rewrite Hg, <- Qsum_map_scal. apply Qsum_map_ext.
    intros z Hz. now rewrite (Hr z Hz). }
  do 4 eexists. split; [reflexivity|]. cbn [assign_all fold_left set_var fst snd
    variable_eqb]. split; [|split; [reflexivity|split; [reflexivity|]]].
  - assert (E : Qmean (map (fun z => (wv * a + bv - snd z) * (wv * a + bv - snd z)) l)
                == mse wv bv l).
    { unfold mse, Qmean. rewrite !length_map.
      rewrite Qsum_map_ext
        with (g := fun z => residual wv bv z * residual wv bv z); [reflexivity|].
      intros z Hz. now rewrite (Hr z Hz). }
    revert E. unfold loss_value. destruct l; [intros _; exact I | intros E; exact E].
  - split.
    + unfold grad_weight, Qmean. rewrite !length_map.
      rewrite Qsum_map_ext with (g := fun z => a * (2 * residual wv bv z)).
      * rewrite Qsum_map_scal, Hg'. unfold Qdiv. ring.
      * intros z Hz. rewrite (Ha z Hz). ring.
    + unfold grad_bias, Qmean. rewrite !length_map, Hg'. unfold Qdiv. ring.
Qed.

End OneInput.

Lemma lift_fst_pair_right (x_batch : list Q) (c : Q) :
  lift fst (map (fun v => (v, c)) x_batch) = array (map Fin x_batch).
Proof. unfold lift. now rewrite map_map. Qed.

Lemma lift_snd_pair_left (a : Q) (y_batch : list Q) :
  lift snd (map (fun v => (a, v)) y_batch) = array (map Fin y_batch).
Proof. unfold lift. now rewrite map_map. Qed.

(** X11.  A target batch with one element is broadcast against the input
    batch: the call succeeds whatever the length of the input batch, and
    returns the loss and makes the gradient step of the data set that pairs
    every input with that one target. *)
Theorem train_broadcasts_a_one_element_target
  (x_batch : list Q) (c : Q) (learning_rate weight bias : Q) (st : store) :
  st var_lr = scalar (Fin learning_rate) ->
  st var_w = scalar (Fin weight) ->
  st var_b = scalar (Fin bias) ->
  let data := map (fun v => (v, c)) x_batch in
  exists current_loss st' weight_new bias_new,
    Notebook.train [array (map Fin x_batch); array [Fin c]] st
    = (Ok [scalar current_loss], st')
    /\ num_eq current_loss (loss_value weight bias data)
    /\ st' var_w = scalar (Fin weight_new)
    /\ st' var_b = scalar (Fin bias_new)
    /\ (weight_new == weight - learning_rate * grad_weight weight bias data)%Q
    /\ (bias_new == bias - learning_rate * grad_bias weight bias data)%Q.
Proof.
  intros Hlr Hw Hb data.
  rewrite <- (lift_fst_pair_right x_batch c). fold data.
  apply (@train_one_target data c st learning_rate weight bias); auto.
  intros z Hz. unfold data in Hz. apply in_map_iff in Hz.
  destruct Hz as (v & <- & _). reflexivity.
Qed.

Lemma train_broadcasts_a_one_element_target_witness :
  exists current_loss st' weight_new bias_new,
    Notebook.train [array (map Fin [1; 2; 3]%Q); array [Fin 2%Q]]
      (Notebook.init_store 0 0)
    = (Ok [scalar current_loss], st')
    /\ num_eq current_loss (loss_value 0 0 (map (fun v => (v, 2%Q)) [1; 2; 3]%Q))
    /\ st' var_w = scalar (Fin weight_new)
    /\ st' var_b = scalar (Fin bias_new)
    /\ (weight_new
        == 0 - (1 # 10) * grad_weight 0 0 (map (fun v => (v, 2%Q)) [1; 2; 3]%Q))%Q
    /\ (bias_new
        == 0 - (1 # 10) * grad_bias 0 0 (map (fun v => (v, 2%Q)) [1; 2; 3]%Q))%Q.
Proof.
  apply (@train_broadcasts_a_one_element_target [1; 2; 3]%Q 2%Q (1 # 10)%Q 0%Q 0%Q
           (Notebook.init_store 0 0)); reflexivity.
Defined.


